(** * convert_onnx_to_tflite.py: the conversion script, embedded and verified

    The script is a straight line of calls into three libraries (onnx,
    tensorflow, onnx-tf) with one branch (the existence check before the
    export).  Its own logic is the order of the calls, the arguments it
    passes, the five assignments of the compatibility patch and the files it
    touches.  The embedding keeps exactly that:

    - the working directory is a tree of files and directories ([FS]);
    - the interpreter's modules are a store of namespaces, so that
      [tf.ceil = tf.math.ceil] is a lookup followed by an assignment ([Py]);
    - a statement is a function from the process state to a result and a new
      state; an exception keeps every effect made before it was raised;
    - the libraries and the standard output are collaborators the script is
      parametric in ([Env]);
    - every call the script makes is recorded, in order, in a trace. *)

From stdpp Require Import gmap strings list fin_maps.
From Stdlib Require Import Strings.Ascii Strings.Byte.

Set Default Proof Using "Type".
#[local] Set Warnings "-register-all".

(** ** The file system below the working directory *)

Module FS.

(** A path is the list of its components; the script's paths are relative
    and written with forward slashes. *)
Definition path := list string.

Fixpoint split_from (cur : string) (s : string) : path :=
  match s with
  | EmptyString => [cur]
  | String c s' =>
      if Ascii.eqb c "/"%char then cur :: split_from EmptyString s'
      else split_from (cur +:+ String c EmptyString) s'
  end.

Definition split_path (s : string) : path := split_from EmptyString s.
Arguments split_path : simpl never.

Inductive node : Type :=
| File (content : list byte)
| Dir (entries : gmap string node).

(** The node a path leads to, if any. *)
Fixpoint walk (p : path) (n : node) : option node :=
  match p with
  | [] => Some n
  | c :: p' =>
      match n with
      | Dir es => match es !! c with Some n' => walk p' n' | None => None end
      | File _ => None
      end
  end.

(** [os.path.exists]: true for a file as much as for a directory. *)
Definition exists_ (p : path) (n : node) : bool :=
  match walk p n with Some _ => true | None => false end.

(** Removes the entry a path leads to, with everything below it.  A path
    that leads nowhere leaves the tree as it is; the root is not an entry
    and cannot be removed. *)
Fixpoint remove_tree (p : path) (n : node) : node :=
  match p with
  | [] => n
  | c :: p' =>
      match n with
      | Dir es =>
          match p' with
          | [] => Dir (delete c es)
          | _ :: _ =>
              match es !! c with
              | Some n' => Dir (<[c := remove_tree p' n']> es)
              | None => n
              end
          end
      | File _ => n
      end
  end.

(** Puts a node at a path whose parent is an existing directory, in place
    of whatever the path led to. *)
Fixpoint put (p : path) (x : node) (n : node) : option node :=
  match p with
  | [] => None
  | c :: p' =>
      match n with
      | Dir es =>
          match p' with
          | [] => Some (Dir (<[c := x]> es))
          | _ :: _ =>
              match es !! c with
              | Some n' =>
                  match put p' x n' with
                  | Some n'' => Some (Dir (<[c := n'']> es))
                  | None => None
                  end
              | None => None
              end
          end
      | File _ => None
      end
  end.

(** Creates or replaces the regular file a path leads to.  Fails when the
    parent is not an existing directory or the target is a directory, as
    [open(path, "wb")] does. *)
Definition write_file (p : path) (b : list byte) (n : node) : option node :=
  match walk p n with
  | Some (Dir _) => None
  | _ => put p (File b) n
  end.

(** Two paths are apart when neither leads through the other. *)
Definition apart (p q : path) : Prop := ¬ p `prefix_of` q ∧ ¬ q `prefix_of` p.

#[export] Instance apart_dec p q : Decision (apart p q).
Proof. unfold apart. apply _. Defined.

End FS.

(** ** The interpreter: objects, exceptions, process state, statements *)

Module Py.

(** What a name can be bound to: a function, known by its qualified name,
    or a module, known by its key in the module store. *)
Inductive pyobj : Type :=
| PyFunc (qualname : string)
| PyModule (ref : string).

#[export] Instance pyobj_eq_dec : EqDecision pyobj.
Proof. solve_decision. Defined.

Inductive exn : Type := PyExn (cls : string) (msg : string).

Inductive result (A : Type) : Type :=
| Ok (a : A)
| Raise (e : exn).
Arguments Ok {A} a.
Arguments Raise {A} e.

Definition is_ok {A} (r : result A) : bool :=
  match r with Ok _ => true | Raise _ => false end.

(** [tf.lite.Optimize] *)
Inductive Optimize : Type :=
| DEFAULT
| OPTIMIZE_FOR_SIZE
| OPTIMIZE_FOR_LATENCY
| EXPERIMENTAL_SPARSITY.

#[export] Instance Optimize_eq_dec : EqDecision Optimize.
Proof. solve_decision. Defined.

(** One entry per call the script makes, in the order the calls are made.
    An entry is written when the call starts, so a call that raises is in
    the trace as well. *)
Inductive event : Type :=
| EvImport (module : string)
| EvSetAttr (module name : string)
| EvLoad (path : string)
| EvPrepare (strict : bool)
| EvRmtree (path : string)
| EvExportGraph (path : string)
| EvFromSavedModel (path : string)
| EvConvert (optimizations : list Optimize)
| EvOpen (path mode : string)
| EvWrite (path : string)
| EvClose (path : string)
| EvPrint (text : string).

#[export] Instance event_eq_dec : EqDecision event.
Proof. solve_decision. Defined.

(** The state of the process and of the machine it runs on. *)
Record World : Type := mkWorld {
  fs : FS.node;
  modules : gmap string (gmap string pyobj);
  stdout : string;
  trace : list event;
}.

Definition set_fs (n : FS.node) (w : World) : World :=
  mkWorld n (modules w) (stdout w) (trace w).
Definition set_modules (m : gmap string (gmap string pyobj)) (w : World) : World :=
  mkWorld (fs w) m (stdout w) (trace w).
Definition put_stdout (s : string) (w : World) : World :=
  mkWorld (fs w) (modules w) (stdout w +:+ s) (trace w).
Definition record (ev : event) (w : World) : World :=
  mkWorld (fs w) (modules w) (stdout w) (trace w ++ [ev]).

(** A statement.  The state comes back with the exception: what was done
    before a failure stays done. *)
Definition M (A : Type) : Type := World → result A * World.

Definition ret {A} (a : A) : M A := λ w, (Ok a, w).

Definition bind {A B} (m : M A) (k : A → M B) : M B := λ w,
  match m w with
  | (Ok a, w') => k a w'
  | (Raise e, w') => (Raise e, w')
  end.

(** [try: m finally: c] with a clean-up that cannot fail. *)
Definition finally {A} (m : M A) (c : World → World) : M A := λ w,
  match m w with (r, w') => (r, c w') end.


(** The attribute [name] of module [ref], as a plain lookup. *)
Definition attr (st : gmap string (gmap string pyobj)) (ref name : string) : option pyobj :=
  match st !! ref with Some ns => ns !! name | None => None end.

Definition AttributeError (name : string) : exn := PyExn "AttributeError" name.

(** [o.name] *)
Definition getattr (o : pyobj) (name : string) : M pyobj := λ w,
  match o with
  | PyModule ref =>
      match attr (modules w) ref name with
      | Some v => (Ok v, w)
      | None => (Raise (AttributeError name), w)
      end
  | PyFunc _ => (Raise (AttributeError name), w)
  end.

Definition bind_name (ref name : string) (v : pyobj)
    (st : gmap string (gmap string pyobj)) : gmap string (gmap string pyobj) :=
  <[ref := <[name := v]> (default ∅ (st !! ref))]> st.

(** [ref.name = v] on a module *)
Definition setattr (ref name : string) (v : pyobj) : M unit := λ w,
  (Ok tt, set_modules (bind_name ref name v (modules w)) (record (EvSetAttr ref name) w)).

(** The text [print] shows for several arguments: the arguments separated
    by blanks. *)
Fixpoint join (sep : string) (l : list string) : string :=
  match l with
  | [] => EmptyString
  | [s] => s
  | s :: l' => s +:+ sep +:+ join sep l'
  end.

Definition newline : string := String (Ascii.ascii_of_nat 10) EmptyString.

(** [sys.stdout.write(s)].  [fault] stands for the stream: it tells the
    exception the stream raises on a string, if any (an encoding that cannot
    represent it, a closed stream).  Nothing of a string the stream refuses
    is output. *)
Definition stdout_write (fault : string → option exn) (s : string) : M unit := λ w,
  match fault s with
  | Some e => (Raise e, w)
  | None => (Ok tt, put_stdout s w)
  end.

(** The arguments of a [print], each written on its own, with a blank
    written before every argument but the first. *)
Fixpoint write_args (fault : string → option exn) (first : bool)
    (args : list string) : M unit :=
  match args with
  | [] => ret tt
  | a :: args' =>
      bind (if first then ret tt else stdout_write fault " ") (λ _,
      bind (stdout_write fault a) (λ _, write_args fault false args'))
  end.

(** [print] of several arguments: the arguments, then a newline.  An
    exception of the stream ends the call and is the call's exception; what
    was written before it stays in the output. *)
Definition print (fault : string → option exn) (args : list string) : M unit := λ w,
  bind (write_args fault true args) (λ _, stdout_write fault newline)
       (record (EvPrint (join " " args)) w).

(** [os.path.exists(p)] *)
Definition os_path_exists (p : string) : M bool := λ w,
  (Ok (FS.exists_ (FS.split_path p) (fs w)), w).

(** [tf.io.gfile.rmtree(p)]: deletes everything at and below [p]; a path
    that does not exist is an error. *)
Definition gfile_rmtree (p : string) : M unit := λ w,
  let w := record (EvRmtree p) w in
  if FS.exists_ (FS.split_path p) (fs w)
  then (Ok tt, set_fs (FS.remove_tree (FS.split_path p) (fs w)) w)
  else (Raise (PyExn "NotFoundError" p), w).

(** [open(p, "wb")]: creates the file or cuts it to length zero. *)
Definition open_wb (p : string) : M string := λ w,
  let w := record (EvOpen p "wb") w in
  match FS.write_file (FS.split_path p) [] (fs w) with
  | Some n => (Ok p, set_fs n w)
  | None => (Raise (PyExn "OSError" p), w)
  end.

(** [f.write(b)] on a file opened by [open_wb]: the bytes go after what
    the file holds. *)
Definition file_write (f : string) (b : list byte) : M unit := λ w,
  let w := record (EvWrite f) w in
  match FS.walk (FS.split_path f) (fs w) with
  | Some (FS.File old) =>
      match FS.write_file (FS.split_path f) (old ++ b) (fs w) with
      | Some n => (Ok tt, set_fs n w)
      | None => (Raise (PyExn "OSError" f), w)
      end
  | _ => (Raise (PyExn "OSError" f), w)
  end.

(** [with open(p, "wb") as f: body]: the file is closed on the way out,
    whether the body returned or raised. *)
Definition with_open_wb {A} (p : string) (body : string → M A) : M A :=
  bind (open_wb p) (λ f, finally (body f) (record (EvClose f))).

End Py.

Export Py.

Declare Scope py_scope.
Delimit Scope py_scope with py.
Notation "x <- m ; k" := (bind m (λ x, k))
(at level 100, m at next level, k at level 200, right associativity,
 format "'[v' x  <-  m ; '/' k ']'") : py_scope.
Notation "m ;; k" := (bind m (λ _, k))
(at level 100, k at level 200, right associativity,
 format "'[v' m ;; '/' k ']'") : py_scope.
Open Scope py_scope.

(** ** The script *)

Section Script.

(** The libraries' own data: an ONNX model in memory, the translator's
    representation of it, and the state of a TFLite converter. *)
Context {Model TfRep Handle : Type}.

(** [tf.lite.TFLiteConverter]: the library's state and the attribute the
    script assigns. *)
Record Converter : Type := mkConverter {
  conv_handle : Handle;
  optimizations : list Optimize;
}.

(** The collaborators and the standard output of the process.  Each is a
    function of what it is handed and of the state it can observe; only the
    exporter changes the file system, and it hands back the tree it leaves
    behind even when it raises.  The entry
    points the script reaches through [tf.io] and [tf.lite] are taken as the
    library's: the patch assigns [ceil], [floor], [abs], [sin] and [cos]
    only, so it cannot rebind them. *)
Record Env : Type := mkEnv {
  (** [import name]: the exception the import raises, if any, given the
      modules as they are at that moment *)
  import_fault : string → gmap string (gmap string pyobj) → option exn;
  (** [onnx.load(path)] *)
  onnx_load : FS.path → FS.node → result Model;
  (** [onnx_tf.backend.prepare(model, strict=...)]; the translator reads
      the tensorflow namespace *)
  prepare : gmap string (gmap string pyobj) → Model → bool → result TfRep;
  (** [tf_rep.export_graph(path)] *)
  export_graph : TfRep → FS.path → FS.node → result unit * FS.node;
  (** [tf.lite.TFLiteConverter.from_saved_model(path)] *)
  from_saved_model : FS.path → FS.node → result Handle;
  (** [converter.convert()] *)
  convert : Converter → FS.node → result (list byte);
  (** [sys.stdout]: the exception a write of the string raises, if any *)
  stdout_fault : string → option exn;
}.

Variable env : Env.

(** The name [tf] of [import tensorflow as tf]. *)
Definition tf : string := "tensorflow".

Definition import_ (name : string) : M unit := λ w,
  let w := record (EvImport name) w in
  match import_fault env name (modules w) with
  | Some e => (Raise e, w)
  | None => (Ok tt, w)
  end.

(** [tf.<name> = tf.math.<name>] *)
Definition patch (name : string) : M unit :=
  math <- getattr (PyModule tf) "math";
  v <- getattr math name;
  setattr tf name v.

(** Lines 7 to 11 *)
Definition compat_shim : M unit :=
  patch "ceil";;
  patch "floor";;
  patch "abs";;
  patch "sin";;
  patch "cos".

Definition onnx_load_ (p : string) : M Model := λ w,
  let w := record (EvLoad p) w in
  (onnx_load env (FS.split_path p) (fs w), w).

Definition prepare_ (onnx_model : Model) (strict : bool) : M TfRep := λ w,
  let w := record (EvPrepare strict) w in
  (prepare env (modules w) onnx_model strict, w).

Definition export_graph_ (tf_rep : TfRep) (p : string) : M unit := λ w,
  let w := record (EvExportGraph p) w in
  match export_graph env tf_rep (FS.split_path p) (fs w) with
  | (r, n) => (r, set_fs n w)
  end.

(** A new converter has no optimizations set. *)
Definition from_saved_model_ (p : string) : M Converter := λ w,
  let w := record (EvFromSavedModel p) w in
  match from_saved_model env (FS.split_path p) (fs w) with
  | Ok h => (Ok (mkConverter h []), w)
  | Raise e => (Raise e, w)
  end.

(** [converter.optimizations = opts] *)
Definition set_optimizations (opts : list Optimize) (c : Converter) : Converter :=
  mkConverter (conv_handle c) opts.

Definition convert_ (converter : Converter) : M (list byte) := λ w,
  let w := record (EvConvert (optimizations converter)) w in
  (convert env converter (fs w), w).

Definition model_path : string := "app/src/main/cpp/llama.cpp/build/gemma3nlu.onnx".
Definition export_dir : string := "app/src/main/assets/models/gemma3nlu_saved_model".
Definition out_path : string := "app/src/main/assets/models/gemma3nlu.tflite".

(** Lines 2 to 16: the imports, with the patch between them. *)
Definition preamble : M unit :=
  import_ "onnx";;
  import_ tf;;
  compat_shim;;
  import_ "onnx_tf.backend";;
  import_ "os".

(** Line 19 *)
Definition load_model : M Model :=
  onnx_load_ model_path.

(** Lines 22 to 26 *)
Definition to_saved_model (onnx_model : Model) : M unit :=
  tf_rep <- prepare_ onnx_model false;
  present <- os_path_exists export_dir;
  (if present then gfile_rmtree export_dir else ret tt);;
  export_graph_ tf_rep export_dir.

(** Lines 29 to 31 *)
Definition to_tflite : M (list byte) :=
  converter <- from_saved_model_ export_dir;
  let converter := set_optimizations [DEFAULT] converter in
  convert_ converter.

(** Lines 34 to 36 *)
Definition write_out (tflite_model : list byte) : M unit :=
  with_open_wb out_path (λ f, file_write f tflite_model).

Definition success_message : string := "✅ Wrote TFLite model to".

(** The whole module body; the confirmation is line 38. *)
Definition main : M unit :=
  preamble;;
  onnx_model <- load_model;
  to_saved_model onnx_model;;
  tflite_model <- to_tflite;
  write_out tflite_model;;
  print (stdout_fault env) [success_message; out_path].

End Script.

Arguments Converter : clear implicits.
Arguments Env : clear implicits.

(** ** The patch on the module store, and the trace of a run *)

(** The store after [tf.<name> = tf.math.<name>], when both lookups
    succeed. *)
Definition patch_store (name : string) (st : gmap string (gmap string pyobj))
  : option (gmap string (gmap string pyobj)) :=
  match attr st tf "math" with
  | Some (PyModule math) =>
      match attr st math name with
      | Some v => Some (bind_name tf name v st)
      | None => None
      end
  | _ => None
  end.

Fixpoint patch_all (names : list string) (st : gmap string (gmap string pyobj))
  : option (gmap string (gmap string pyobj)) :=
  match names with
  | [] => Some st
  | name :: names' =>
      match patch_store name st with
      | Some st' => patch_all names' st'
      | None => None
      end
  end.

(** The names the patch assigns, in the order of the source. *)
Definition shim_names : list string := ["ceil"; "floor"; "abs"; "sin"; "cos"].

Definition shim_store (st : gmap string (gmap string pyobj))
  : option (gmap string (gmap string pyobj)) :=
  patch_all shim_names st.

(** The top-level name and the name in the math module are bound to the
    same object. *)
Definition rebound (st : gmap string (gmap string pyobj)) (math name : string) : Prop :=
  attr st tf "math" = Some (PyModule math) ∧
  is_Some (attr st tf name) ∧
  attr st tf name = attr st math name.

(** The events a run added to the trace. *)
Definition new_events (w w' : World) : list event :=
  drop (length (trace w)) (trace w').

(** The exception a failed [tf.<name> = tf.math.<name>] raises. *)
Definition patch_error (name : string) (st : gmap string (gmap string pyobj)) : exn :=
  match attr st tf "math" with
  | None => AttributeError "math"
  | Some _ => AttributeError name
  end.

(** Several assignments in a row. *)
Fixpoint patches (names : list string) : M unit :=
  match names with
  | [] => ret tt
  | name :: names' => patch name;; patches names'
  end.

Definition shim_events : list event := map (EvSetAttr tf) shim_names.


(** ** The ways the script can end

    The paths of the script as component lists, the calls of a complete run,
    and the conditions under which each stage is passed. *)

(** The paths are compared as they are written: splitting them is left to
    explicit computation. *)
Opaque FS.split_path.

Abbreviation model_file := (FS.split_path model_path).
Abbreviation export_at := (FS.split_path export_dir).
Abbreviation out_at := (FS.split_path out_path).

(** The text of the confirmation, without the newline. *)
Definition confirmation : string := join " " [success_message; out_path].

(** The strings the confirmation is written in, in order. *)
Definition print_pieces : list string := [success_message; " "; out_path; newline].

(** What a stream takes of strings written one after another: the strings
    before the first one it refuses, and the exception it raises on that
    one. *)
Fixpoint write_pieces (fault : string → option exn) (pieces : list string)
  : list string * option exn :=
  match pieces with
  | [] => ([], None)
  | s :: pieces' =>
      match fault s with
      | Some e => ([], Some e)
      | None =>
          match write_pieces fault pieces' with
          | (sent, r) => (s :: sent, r)
          end
      end
  end.

(** The output after the strings [l] have been written to it. *)
Definition emit (out : string) (l : list string) : string :=
  fold_left (λ acc s, acc +:+ s) l out.

(** The attributes a trace assigns, in order. *)
Definition assigned (t : list event) : list (string * string) :=
  omap (λ ev, match ev with EvSetAttr ref name => Some (ref, name) | _ => None end) t.

Definition preamble_events : list event :=
  [EvImport "onnx"; EvImport tf] ++ shim_events ++
  [EvImport "onnx_tf.backend"; EvImport "os"].

(** The removal is called only when something is at the export path. *)
Definition rmtree_events (present : bool) : list event :=
  if present then [EvRmtree export_dir] else [].

Definition translate_events (present : bool) : list event :=
  [EvLoad model_path; EvPrepare false] ++ rmtree_events present ++
  [EvExportGraph export_dir].

Definition convert_events : list event :=
  [EvFromSavedModel export_dir; EvConvert [DEFAULT]].

Definition write_events : list event :=
  [EvOpen out_path "wb"; EvWrite out_path; EvClose out_path].

Definition script_events (present : bool) : list event :=
  preamble_events ++ translate_events present ++ convert_events ++
  write_events ++ [EvPrint confirmation].

(** The state after the preamble and [evs] more calls, with the tree [n]. *)
Definition after_preamble (w : World) (st1 : gmap string (gmap string pyobj))
    (n : FS.node) (evs : list event) : World :=
  mkWorld n st1 (stdout w) (trace w ++ preamble_events ++ evs).

Section Stages.

Context {Model TfRep Handle : Type}.
Variable env : Env Model TfRep Handle.
Variable w : World.

(** Whether something is at the export path when the run starts. *)
Definition present : bool := FS.exists_ export_at (fs w).

(** The preamble is passed: no import raises and the patch finds its five
    functions; [st1] is the module store it leaves. *)
Record Started (st1 : gmap string (gmap string pyobj)) : Prop := {
  import_onnx_ok : import_fault env "onnx" (modules w) = None;
  import_tf_ok : import_fault env tf (modules w) = None;
  shim_ok : shim_store (modules w) = Some st1;
  import_onnx_tf_ok : import_fault env "onnx_tf.backend" st1 = None;
  import_os_ok : import_fault env "os" st1 = None;
}.

(** The model is loaded and translated, and the export has left the tree
    [n2].  The exporter is handed the start tree with the export path
    removed. *)
Record Exported (st1 : gmap string (gmap string pyobj)) (m : Model)
    (rep : TfRep) (n2 : FS.node) : Prop := {
  exported_started : Started st1;
  load_ok : onnx_load env model_file (fs w) = Ok m;
  prepare_ok : prepare env st1 m false = Ok rep;
  export_ok :
    export_graph env rep export_at (FS.remove_tree export_at (fs w)) = (Ok tt, n2);
}.

(** The conversion has returned the bytes [b]. *)
Record Converted (st1 : gmap string (gmap string pyobj)) (m : Model)
    (rep : TfRep) (n2 : FS.node) (h : Handle) (b : list byte) : Prop := {
  converted_exported : Exported st1 m rep n2;
  from_saved_model_ok : from_saved_model env export_at n2 = Ok h;
  convert_ok : convert env (mkConverter h [DEFAULT]) n2 = Ok b;
}.

(** The stream takes the whole confirmation. *)
Definition Printable : Prop :=
  Forall (λ s, stdout_fault env s = None) print_pieces.

(** The nine ways a run ends: eight calls that can raise, and the end of
    the script.  When the confirmation raises, the artifact is written
    already. *)
Inductive Outcome : result unit → World → Prop :=
| halt_preamble e w1 :
    preamble env w = (Raise e, w1) →
    Outcome (Raise e) w1
| halt_load st1 e :
    Started st1 →
    onnx_load env model_file (fs w) = Raise e →
    Outcome (Raise e) (after_preamble w st1 (fs w) [EvLoad model_path])
| halt_prepare st1 m e :
    Started st1 →
    onnx_load env model_file (fs w) = Ok m →
    prepare env st1 m false = Raise e →
    Outcome (Raise e)
      (after_preamble w st1 (fs w) [EvLoad model_path; EvPrepare false])
| halt_export st1 m rep e n2 :
    Started st1 →
    onnx_load env model_file (fs w) = Ok m →
    prepare env st1 m false = Ok rep →
    export_graph env rep export_at (FS.remove_tree export_at (fs w)) = (Raise e, n2) →
    Outcome (Raise e) (after_preamble w st1 n2 (translate_events present))
| halt_from_saved_model st1 m rep n2 e :
    Exported st1 m rep n2 →
    from_saved_model env export_at n2 = Raise e →
    Outcome (Raise e)
      (after_preamble w st1 n2
         (translate_events present ++ [EvFromSavedModel export_dir]))
| halt_convert st1 m rep n2 h e :
    Exported st1 m rep n2 →
    from_saved_model env export_at n2 = Ok h →
    convert env (mkConverter h [DEFAULT]) n2 = Raise e →
    Outcome (Raise e)
      (after_preamble w st1 n2 (translate_events present ++ convert_events))
| halt_open st1 m rep n2 h b :
    Converted st1 m rep n2 h b →
    FS.write_file out_at b n2 = None →
    Outcome (Raise (PyExn "OSError" out_path))
      (after_preamble w st1 n2
         (translate_events present ++ convert_events ++ [EvOpen out_path "wb"]))
| halt_print st1 m rep n2 h b n3 sent e :
    Converted st1 m rep n2 h b →
    FS.write_file out_at b n2 = Some n3 →
    write_pieces (stdout_fault env) print_pieces = (sent, Some e) →
    Outcome (Raise e)
      (mkWorld n3 st1 (emit (stdout w) sent) (trace w ++ script_events present))
| finished st1 m rep n2 h b n3 :
    Converted st1 m rep n2 h b →
    FS.write_file out_at b n2 = Some n3 →
    Printable →
    Outcome (Ok tt)
      (mkWorld n3 st1 (stdout w +:+ confirmation +:+ newline)
         (trace w ++ script_events present)).

End Stages.

(** ** Vocabulary of the properties *)

(** The calls that come after the model is loaded: the translation, the
    removal and the export of the intermediate directory, the conversion,
    the write of the artifact and the confirmation. *)
Definition past_load (ev : event) : bool :=
  match ev with
  | EvImport _ | EvSetAttr _ _ | EvLoad _ => false
  | _ => true
  end.

(** The calls of a trace that open a file for writing or write to one. *)
Definition is_file_write (ev : event) : bool :=
  match ev with EvOpen _ _ | EvWrite _ => true | _ => false end.

Definition file_writes (t : list event) : list event :=
  List.filter is_file_write t.

(** Whether a path leads to a directory. *)
Definition is_dir_at (p : FS.path) (n : FS.node) : bool :=
  match FS.walk p n with Some (FS.Dir _) => true | _ => false end.

(** The same collaborators with another translator. *)
Definition with_prepare {Model TfRep Handle : Type}
    (f : gmap string (gmap string pyobj) → Model → bool → result TfRep)
    (env : Env Model TfRep Handle) : Env Model TfRep Handle :=
  mkEnv (import_fault env) (onnx_load env) f (export_graph env)
        (from_saved_model env) (convert env) (stdout_fault env).


(** The five names are bound at the tensorflow top level. *)
Definition patched (st : gmap string (gmap string pyobj)) : Prop :=
  ∀ name, name ∈ shim_names → is_Some (attr st tf name).

(** The same collaborators with another onnx-tf: another import of
    [onnx_tf.backend] and another translator. *)
Definition with_onnx_tf {Model TfRep Handle : Type}
    (imp : gmap string (gmap string pyobj) → option exn)
    (prep : gmap string (gmap string pyobj) → Model → bool → result TfRep)
    (env : Env Model TfRep Handle) : Env Model TfRep Handle :=
  mkEnv (λ name st, if decide (name = "onnx_tf.backend") then imp st
                    else import_fault env name st)
        (onnx_load env) prep (export_graph env)
        (from_saved_model env) (convert env) (stdout_fault env).

(** The same collaborators with another conversion. *)
Definition with_convert {Model TfRep Handle : Type}
    (f : Converter Handle → FS.node → result (list byte))
    (env : Env Model TfRep Handle) : Env Model TfRep Handle :=
  mkEnv (import_fault env) (onnx_load env) (prepare env) (export_graph env)
        (from_saved_model env) f (stdout_fault env).



(** ** A small concrete instance

  A working directory with the model file, a saved-model directory left by
  an earlier run and an old artifact; a tensorflow whose top level lacks
  the five functions; collaborators that copy bytes.  The translator
  import needs the five names at the top level, as onnx-tf 1.5.0 does. *)

Module Demo.

Definition store0 : gmap string (gmap string pyobj) :=
  {[ "tensorflow" := {[ "math" := PyModule "tensorflow.math";
                        "io" := PyModule "tensorflow.io";
                        "lite" := PyModule "tensorflow.lite" ]};
     "tensorflow.math" := {[ "ceil" := PyFunc "tensorflow.math.ceil";
                             "floor" := PyFunc "tensorflow.math.floor";
                             "abs" := PyFunc "tensorflow.math.abs";
                             "sin" := PyFunc "tensorflow.math.sin";
                             "cos" := PyFunc "tensorflow.math.cos";
                             "tan" := PyFunc "tensorflow.math.tan" ]} ]}.

Definition model_bytes : list byte := [x08; x07; x12; x04].
Definition stale_bytes : list byte := [xde; xad].
Definition old_artifact : list byte := [x00; x01; x02].

Definition dir1 (name : string) (n : FS.node) : FS.node := FS.Dir {[ name := n ]}.

Definition models0 : FS.node :=
  FS.Dir {[ "gemma3nlu_saved_model" := dir1 "stale.bin" (FS.File stale_bytes);
            "gemma3nlu.tflite" := FS.File old_artifact ]}.

Definition tree (models : FS.node) (build : FS.node) : FS.node :=
  dir1 "app" (dir1 "src" (dir1 "main"
    (FS.Dir {[ "cpp" := dir1 "llama.cpp" (dir1 "build" build);
               "assets" := dir1 "models" models ]}))).

(** The model file is there; so are a stale export and an old artifact. *)
Definition fs0 : FS.node := tree models0 (dir1 "gemma3nlu.onnx" (FS.File model_bytes)).

(** The model file is missing. *)
Definition fs_no_model : FS.node := tree models0 (FS.Dir ∅).

(** A regular file, not a directory, sits at the export path. *)
Definition fs_file_at_export : FS.node :=
  tree (FS.Dir {[ "gemma3nlu_saved_model" := FS.File stale_bytes ]})
       (dir1 "gemma3nlu.onnx" (FS.File model_bytes)).

Definition world (n : FS.node) : World := mkWorld n store0 EmptyString [].

Definition patched (st : gmap string (gmap string pyobj)) : bool :=
  forallb (λ name, bool_decide (is_Some (attr st "tensorflow" name)))
          ["ceil"; "floor"; "abs"; "sin"; "cos"].

Definition demo_import_fault (name : string)
    (st : gmap string (gmap string pyobj)) : option exn :=
  if bool_decide (name = "onnx_tf.backend") && negb (patched st)
  then Some (AttributeError "ceil") else None.

Definition demo_load (p : FS.path) (n : FS.node) : result (list byte) :=
  match FS.walk p n with
  | Some (FS.File b) => Ok b
  | _ => Raise (PyExn "FileNotFoundError" "")
  end.

Definition demo_prepare (strict_fails : bool) (st : gmap string (gmap string pyobj))
    (m : list byte) (strict : bool) : result (list byte) :=
  if strict && strict_fails then Raise (PyExn "RuntimeError" "unsupported operator")
  else Ok m.

Definition demo_export (rep : list byte) (p : FS.path) (n : FS.node)
    : result unit * FS.node :=
  match FS.put p (dir1 "saved_model.pb" (FS.File rep)) n with
  | Some n' => (Ok tt, n')
  | None => (Raise (PyExn "OSError" ""), n)
  end.

Definition demo_from_saved_model (p : FS.path) (n : FS.node) : result (list byte) :=
  match FS.walk (p ++ ["saved_model.pb"]) n with
  | Some (FS.File b) => Ok b
  | _ => Raise (PyExn "OSError" "SavedModel file does not exist")
  end.

Definition demo_convert (fails : bool) (c : Converter (list byte)) (n : FS.node)
    : result (list byte) :=
  if fails then Raise (PyExn "ConverterError" "")
  else Ok (if bool_decide (DEFAULT ∈ optimizations c)
           then x51 :: conv_handle c else conv_handle c).

(** A standard output that takes every string, as one with the UTF-8
    encoding does. *)
Definition utf8_stdout (s : string) : option exn := None.



(** [strict_fails]: the translator rejects the model in strict mode;
    [convert_fails]: the conversion raises. *)
Definition demo_env (strict_fails convert_fails : bool)
    : Env (list byte) (list byte) (list byte) :=
  mkEnv demo_import_fault demo_load (demo_prepare strict_fails) demo_export
        demo_from_saved_model (demo_convert convert_fails) utf8_stdout.


(** The module store after the patch, the tree the exporter leaves on
    [fs0], the bytes the conversion returns and the tree at the end of a
    successful run. *)
Definition st1 : gmap string (gmap string pyobj) :=
  Eval vm_compute in default ∅ (shim_store store0).

Definition exported : FS.node :=
  Eval vm_compute in
    (demo_export model_bytes export_at (FS.remove_tree export_at fs0)).2.

Definition artifact : list byte := x51 :: model_bytes.

Definition final : FS.node :=
  Eval vm_compute in default exported (FS.write_file out_at artifact exported).





(** A tensorflow whose math module has no [sin]. *)
Definition store_no_sin : gmap string (gmap string pyobj) :=
  {[ "tensorflow" := {[ "math" := PyModule "tensorflow.math" ]};
     "tensorflow.math" := {[ "ceil" := PyFunc "tensorflow.math.ceil";
                             "floor" := PyFunc "tensorflow.math.floor";
                             "abs" := PyFunc "tensorflow.math.abs";
                             "cos" := PyFunc "tensorflow.math.cos" ]} ]}.

(** The store [store_no_sin] after the first three assignments. *)
Definition store_three : gmap string (gmap string pyobj) :=
  Eval vm_compute in default ∅ (patch_all ["ceil"; "floor"; "abs"] store_no_sin).

(** A translator that fails in lenient mode. *)
Definition prepare_fails (st : gmap string (gmap string pyobj))
    (m : list byte) (strict : bool) : result (list byte) :=
  Raise (PyExn "RuntimeError" "unsupported graph").

(** A conversion that keeps the model as it is unless it is asked for the
    default optimizations alone. *)
Definition convert_default_only (c : Converter (list byte)) (n : FS.node)
    : result (list byte) :=
  if bool_decide (optimizations c = [DEFAULT]) then Ok (x51 :: conv_handle c)
  else Raise (PyExn "ConverterError" "").

End Demo.


(** * Lemmas *)

(** ** The file system *)

Module FSFacts.

Import FS.

Lemma apart_sym p q : apart p q → apart q p.
Proof. unfold apart. tauto. Qed.

Lemma apart_cons c p q : apart (c :: p) (c :: q) → apart p q.
Proof.
  intros [H1 H2]. split; intros H; [apply H1 | apply H2];
    by apply prefix_cons.
Qed.

Lemma walk_app p q n :
  walk (p ++ q) n = walk p n ≫= walk q.
Proof.
  revert n. induction p as [|c p IH]; intros n; simpl; [done|].
  destruct n as [|es]; [done|]. destruct (es !! c); [apply IH | done].
Qed.

(** Nothing is left at or below a removed path. *)
Lemma walk_remove_tree_below p q n :
  p ≠ [] → walk (p ++ q) (remove_tree p n) = None.
Proof.
  revert n. induction p as [|c p IH]; intros n Hp; [done|]. simpl.
  destruct n as [b|es]; [done|].
  destruct p as [|c' p].
  - simpl. by rewrite lookup_delete_eq.
  - destruct (es !! c) as [n'|] eqn:Hc.
    + cbn [walk]. rewrite lookup_insert_eq. by apply IH.
    + cbn [walk]. by rewrite Hc.
Qed.

Lemma exists_remove_tree p n : p ≠ [] → exists_ p (remove_tree p n) = false.
Proof.
  intros Hp. unfold exists_.
  by rewrite <- (app_nil_r p) at 1; rewrite walk_remove_tree_below.
Qed.

(** Removal leaves every path apart from the removed one as it was. *)
Lemma walk_remove_tree_apart p q n :
  apart p q → walk q (remove_tree p n) = walk q n.
Proof.
  revert q n. induction p as [|c p IH]; intros q n Hpq; [done|].
  destruct q as [|d q]; [destruct Hpq as [_ []]; apply prefix_nil|].
  simpl. destruct n as [b|es]; [done|].
  destruct (decide (c = d)) as [->|Hne].
  - apply apart_cons in Hpq.
    destruct p as [|c' p]; [destruct Hpq as [[] _]; apply prefix_nil|].
    destruct (es !! d) as [n'|] eqn:Hd; cbn [walk].
    + rewrite lookup_insert_eq. by apply IH.
    + by rewrite Hd.
  - destruct p as [|c' p]; cbn [walk].
    + by rewrite lookup_delete_ne.
    + destruct (es !! c) as [n'|] eqn:Hc; cbn [walk]; [|done].
      by rewrite lookup_insert_ne.
Qed.

Lemma remove_tree_absent p n : walk p n = None → remove_tree p n = n.
Proof.
  revert n. induction p as [|c p IH]; intros n H; [done|].
  simpl in *. destruct n as [b|es]; [done|].
  destruct (es !! c) as [n'|] eqn:Hc.
  - destruct p as [|c' p]; [done|].
    rewrite (IH _ H). by rewrite insert_id.
  - destruct p; [by rewrite delete_id | done].
Qed.

Lemma put_deeper c c' p x es :
  put (c :: c' :: p) x (Dir es) =
  n' ← es !! c; n'' ← put (c' :: p) x n'; Some (Dir (<[c := n'']> es)).
Proof. cbn [put]. destruct (es !! c); reflexivity. Qed.

Lemma walk_put p x n n' : put p x n = Some n' → walk p n' = Some x.
Proof.
  revert n n'. induction p as [|c p IH]; intros n n' H; [done|].
  destruct n as [b0|es]; [done|]. destruct p as [|c' p].
  - simplify_eq/=. by rewrite lookup_insert_eq.
  - rewrite put_deeper in H. destruct (es !! c) as [n0|]; [|done].
    cbn [mbind option_bind] in H.
    destruct (put (c' :: p) x n0) as [n1|] eqn:Hw; [|done].
    cbn [mbind option_bind] in H. simplify_eq.
    cbn [walk]. rewrite lookup_insert_eq. by eapply IH.
Qed.

Lemma walk_put_below p q x n n' :
  put p x n = Some n' → walk (p ++ q) n' = walk q x.
Proof. intros H. by rewrite walk_app, (walk_put _ _ _ _ H). Qed.

(** Putting a node changes no path apart from its own. *)
Lemma walk_put_apart p q x n n' :
  put p x n = Some n' → apart p q → walk q n' = walk q n.
Proof.
  revert q n n'. induction p as [|c p IH]; intros q n n' H Hpq; [done|].
  destruct q as [|d q]; [destruct Hpq as [_ []]; apply prefix_nil|].
  destruct n as [b0|es]; [done|].
  destruct (decide (c = d)) as [->|Hne].
  - apply apart_cons in Hpq.
    destruct p as [|c' p]; [destruct Hpq as [[] _]; apply prefix_nil|].
    rewrite put_deeper in H. destruct (es !! d) as [n0|] eqn:Hd; [|done].
    cbn [mbind option_bind] in H.
    destruct (put (c' :: p) x n0) as [n1|] eqn:Hw; [|done].
    cbn [mbind option_bind] in H. simplify_eq.
    cbn [walk]. rewrite lookup_insert_eq, Hd. by eapply IH.
  - assert (∀ y, walk (d :: q) (Dir (<[c := y]> es)) = walk (d :: q) (Dir es))
      as Hins by (intros y; cbn [walk]; by rewrite lookup_insert_ne).
    destruct p as [|c' p]; [simplify_eq/=; apply Hins|].
    rewrite put_deeper in H. destruct (es !! c) as [n0|]; [|done].
    cbn [mbind option_bind] in H.
    destruct (put (c' :: p) x n0); [|done].
    cbn [mbind option_bind] in H. simplify_eq. apply Hins.
Qed.

Lemma put_twice p x y n n' : put p x n = Some n' → put p y n' = put p y n.
Proof.
  revert n n'. induction p as [|c p IH]; intros n n' H; [done|].
  destruct n as [b0|es]; [done|]. destruct p as [|c' p].
  - simplify_eq/=. by rewrite insert_insert_eq.
  - rewrite put_deeper in H. rewrite put_deeper.
    destruct (es !! c) as [n0|] eqn:Hc; [|done].
    cbn [mbind option_bind] in *.
    destruct (put (c' :: p) x n0) as [n1|] eqn:Hw; [|done].
    cbn [mbind option_bind] in H. simplify_eq.
    rewrite put_deeper, lookup_insert_eq. cbn [mbind option_bind].
    rewrite (IH _ _ Hw). destruct (put (c' :: p) y n0); [|done].
    cbn [mbind option_bind]. by rewrite insert_insert_eq.
Qed.

Lemma write_file_put p b n n' :
  write_file p b n = Some n' → put p (File b) n = Some n'.
Proof. unfold write_file. by destruct (walk p n) as [[|]|]. Qed.

(** After a write the path leads to a file with exactly the bytes written. *)
Lemma walk_write_file p b n n' :
  write_file p b n = Some n' → walk p n' = Some (File b).
Proof. intros H. eapply walk_put, write_file_put, H. Qed.

(** A write changes no path that does not lead to or through its target:
    what lies below a regular file is nothing, before and after. *)
Lemma walk_write_file_other p q b n n' :
  write_file p b n = Some n' → ¬ q `prefix_of` p → walk q n' = walk q n.
Proof.
  intros H Hq. destruct (decide (p `prefix_of` q)) as [[r ->]|Hp].
  - destruct r as [|c r]; [destruct Hq; by rewrite app_nil_r|].
    rewrite (walk_put_below _ _ _ _ _ (write_file_put _ _ _ _ H)), walk_app.
    unfold write_file in H. by destruct (walk p n) as [[|]|].
  - eapply walk_put_apart; [by apply write_file_put|done].
Qed.

(** Writing over a file just written is writing once. *)
Lemma write_file_twice p b1 b2 n n' :
  write_file p b1 n = Some n' → write_file p b2 n' = write_file p b2 n.
Proof.
  intros H. unfold write_file at 1. rewrite (walk_write_file _ _ _ _ H).
  rewrite (put_twice _ _ _ _ _ (write_file_put _ _ _ _ H)).
  unfold write_file in *. by destruct (walk p n) as [[|]|].
Qed.

(** Whether a node can be put at a path does not depend on the node. *)
Lemma put_is_Some p x y n : is_Some (put p x n) → is_Some (put p y n).
Proof.
  revert n. induction p as [|c p IH]; intros n [n' H]; [done|].
  destruct n as [b0|es]; [done|]. destruct p as [|c' p]; [by eexists|].
  rewrite put_deeper in *. destruct (es !! c) as [n0|]; [|done].
  cbn [mbind option_bind] in *.
  destruct (put (c' :: p) x n0) as [n1|] eqn:Hx; [|done].
  destruct (IH n0) as [n2 ->]; [by eexists|]. by eexists.
Qed.

Lemma write_file_is_Some p b b' n :
  is_Some (write_file p b n) → is_Some (write_file p b' n).
Proof.
  unfold write_file. destruct (walk p n) as [[|]|]; try done; apply put_is_Some.
Qed.



(** *** Removal and replacement as operations on the whole tree *)

Lemma remove_tree_deeper c c' p es :
  remove_tree (c :: c' :: p) (Dir es) =
  match es !! c with
  | Some n' => Dir (<[c := remove_tree (c' :: p) n']> es)
  | None => Dir es
  end.
Proof. reflexivity. Qed.

Lemma apart_nil_l q : ¬ apart [] q.
Proof. intros [H _]. apply H, prefix_nil. Qed.

Lemma apart_nil_r p : ¬ apart p [].
Proof. intros [_ H]. apply H, prefix_nil. Qed.

Lemma apart_cons_ne c d p q : c ≠ d → apart (c :: p) (d :: q).
Proof.
  intros Hne. split; intros [k Hk]; simplify_eq/=.
Qed.

(** Two paths that are apart stay apart however the second is extended. *)
Lemma apart_app_r p q r : apart p q → apart p (q ++ r).
Proof.
  revert q. induction p as [|c p IH]; intros q Hpq;
    [by destruct (apart_nil_l q)|].
  destruct q as [|d q]; [by destruct (apart_nil_r (c :: p))|].
  destruct (decide (c = d)) as [->|Hne]; [|by apply apart_cons_ne].
  apply apart_cons in Hpq. specialize (IH _ Hpq) as [H1 H2].
  split; intros H; [apply H1|apply H2]; simpl in H;
    by eapply prefix_cons_inv_2.
Qed.


(** Putting a node does not depend on what was at the path. *)
Lemma put_remove_tree p x n : put p x (remove_tree p n) = put p x n.
Proof.
  revert n. induction p as [|c p IH]; intros n; [done|].
  destruct n as [b0|es]; [done|]. destruct p as [|c' p].
  - simpl. by rewrite insert_delete_eq.
  - rewrite remove_tree_deeper, (put_deeper _ _ _ _ es).
    destruct (es !! c) as [n0|] eqn:Hc.
    + rewrite put_deeper, lookup_insert_eq. cbn [mbind option_bind].
      rewrite IH. destruct (put (c' :: p) x n0) as [n1|]; [|done].
      cbn [mbind option_bind]. by rewrite insert_insert_eq.
    + rewrite put_deeper, Hc. done.
Qed.




End FSFacts.

(** ** The module store under assignment *)

Section Store.

Implicit Types st : gmap string (gmap string pyobj).

Lemma attr_bind_name_eq st ref name v :
  attr (bind_name ref name v st) ref name = Some v.
Proof. unfold attr, bind_name. by rewrite !lookup_insert_eq. Qed.

Lemma attr_bind_name_ne st ref name v ref' name' :
  (ref, name) ≠ (ref', name') →
  attr (bind_name ref name v st) ref' name' = attr st ref' name'.
Proof.
  intros Hne. unfold attr, bind_name.
  destruct (decide (ref = ref')) as [->|Hr].
  - rewrite lookup_insert_eq.
    rewrite lookup_insert_ne by congruence.
    by destruct (st !! ref').
  - by rewrite lookup_insert_ne.
Qed.

Lemma lookup_bind_name_ne st ref name v ref' :
  ref ≠ ref' → bind_name ref name v st !! ref' = st !! ref'.
Proof. intros. unfold bind_name. by rewrite lookup_insert_ne. Qed.

Lemma patch_store_frame name st st' ref name' :
  patch_store name st = Some st' →
  (tf, name) ≠ (ref, name') → attr st' ref name' = attr st ref name'.
Proof.
  unfold patch_store. intros H Hne.
  destruct (attr st tf "math") as [[?|math]|]; try done.
  destruct (attr st math name); simplify_eq.
  by apply attr_bind_name_ne.
Qed.

Lemma patch_store_other_module name st st' ref :
  patch_store name st = Some st' → ref ≠ tf → st' !! ref = st !! ref.
Proof.
  unfold patch_store. intros H Hne.
  destruct (attr st tf "math") as [[?|math]|]; try done.
  destruct (attr st math name); simplify_eq.
  by apply lookup_bind_name_ne.
Qed.

Lemma patch_all_frame names st st' ref name' :
  patch_all names st = Some st' →
  (ref = tf → name' ∉ names) → attr st' ref name' = attr st ref name'.
Proof.
  revert st. induction names as [|name names IH]; intros st H Hne.
  - by simplify_eq/=.
  - simpl in H. destruct (patch_store name st) as [st1|] eqn:H1; [|done].
    rewrite (IH _ H).
    + eapply patch_store_frame; [done|]. intros [= <- <-].
      apply Hne; [done|]. by left.
    + intros ->. specialize (Hne eq_refl). set_solver.
Qed.

Lemma patch_all_other_module names st st' ref :
  patch_all names st = Some st' → ref ≠ tf → st' !! ref = st !! ref.
Proof.
  revert st. induction names as [|name names IH]; intros st H Hne.
  - by simplify_eq/=.
  - simpl in H. destruct (patch_store name st) as [st1|] eqn:H1; [|done].
    rewrite (IH _ H Hne). by eapply patch_store_other_module.
Qed.

Lemma patch_store_rebound name st st' :
  patch_store name st = Some st' → name ≠ "math" →
  ∃ math, attr st tf "math" = Some (PyModule math) ∧ rebound st' math name.
Proof.
  unfold patch_store. intros H Hne.
  destruct (attr st tf "math") as [[?|math]|] eqn:Hm; try done.
  destruct (attr st math name) as [v|] eqn:Hv; simplify_eq.
  exists math. split; [done|]. unfold rebound.
  rewrite attr_bind_name_eq.
  rewrite attr_bind_name_ne by congruence.
  split; [done|]. split; [by eexists|].
  destruct (decide (math = tf)) as [->|Hmath].
  - by rewrite attr_bind_name_eq.
  - rewrite attr_bind_name_ne by congruence. done.
Qed.

Lemma patch_store_keeps_rebound name' st st' math name :
  patch_store name' st = Some st' → name' ≠ "math" →
  rebound st math name → rebound st' math name.
Proof.
  unfold patch_store, rebound. intros H Hne (Hm & Hs & Heq).
  rewrite Hm in H. destruct (attr st math name') as [v|] eqn:Hv; simplify_eq.
  rewrite (attr_bind_name_ne _ _ _ _ tf "math") by congruence.
  split; [done|].
  destruct (decide (name' = name)) as [->|Hn].
  - rewrite attr_bind_name_eq. split; [by eexists|].
    destruct (decide (math = tf)) as [->|Hmath].
    + by rewrite attr_bind_name_eq.
    + rewrite attr_bind_name_ne by congruence. done.
  - rewrite (attr_bind_name_ne _ _ _ _ tf name) by congruence.
    split; [done|].
    destruct (decide (math = tf)) as [->|Hmath].
    + by rewrite attr_bind_name_ne by congruence.
    + by rewrite (attr_bind_name_ne _ _ _ _ math name) by congruence.
Qed.

Lemma patch_all_keeps_rebound names st st' math name :
  patch_all names st = Some st' → "math" ∉ names →
  rebound st math name → rebound st' math name.
Proof.
  revert st. induction names as [|name' names IH]; intros st H Hne Hr.
  - by simplify_eq/=.
  - simpl in H. destruct (patch_store name' st) as [st1|] eqn:H1; [|done].
    apply (IH st1); [done|set_solver|].
    eapply patch_store_keeps_rebound; [done|set_solver|done].
Qed.

Lemma patch_all_rebound names st st' math :
  patch_all names st = Some st' → "math" ∉ names →
  attr st tf "math" = Some (PyModule math) →
  ∀ name, name ∈ names → rebound st' math name.
Proof.
  revert st. induction names as [|name' names IH]; intros st H Hne Hm name Hin.
  - by apply elem_of_nil in Hin.
  - simpl in H. destruct (patch_store name' st) as [st1|] eqn:H1; [|done].
    assert (name' ≠ "math") as Hn' by (intros ->; apply Hne; by left).
    destruct (patch_store_rebound _ _ _ H1 Hn') as (math' & Hm' & Hr).
    assert (math' = math) as -> by congruence.
    rewrite elem_of_cons in Hin. destruct Hin as [->|Hin].
    + eapply patch_all_keeps_rebound; [done|set_solver|done].
    + eapply (IH st1); [done|set_solver| |done]. apply Hr.
Qed.

(** The patch goes through when the math module has every name. *)
Lemma patch_all_total names st math :
  "math" ∉ names →
  attr st tf "math" = Some (PyModule math) →
  (∀ name, name ∈ names → is_Some (attr st math name)) →
  is_Some (patch_all names st).
Proof.
  revert st. induction names as [|name names IH]; intros st Hne Hm Hall.
  - by eexists.
  - simpl. destruct (Hall name) as [v Hv]; [by left|].
    unfold patch_store. rewrite Hm, Hv.
    apply IH; [set_solver| |].
    + rewrite attr_bind_name_ne; [done|]. intros [= ->]. set_solver.
    + intros name' Hin. destruct (Hall name') as [v' Hv']; [by right|].
      destruct (decide ((tf, name) = (math, name'))) as [[= <- <-]|Hd].
      * rewrite attr_bind_name_eq. by eexists.
      * rewrite attr_bind_name_ne by done. by eexists.
Qed.

End Store.

(** ** The patch as it runs *)

Section Shim.

Lemma new_events_app w w' t : trace w' = trace w ++ t → new_events w w' = t.
Proof. intros H. unfold new_events. by rewrite H, drop_app_length. Qed.

Lemma patch_run name w :
  patch name w =
  match patch_store name (modules w) with
  | Some st' =>
      (Ok tt, mkWorld (fs w) st' (stdout w) (trace w ++ [EvSetAttr tf name]))
  | None => (Raise (patch_error name (modules w)), w)
  end.
Proof.
  unfold patch, patch_store, patch_error, bind, getattr, setattr.
  change (attr (modules w) "tensorflow" "math") with (attr (modules w) tf "math").
  destruct (attr (modules w) tf "math") as [[?|math]|]; try done.
  by destruct (attr (modules w) math name).
Qed.

Lemma compat_shim_patches w : compat_shim w = patches shim_names w.
Proof.
  unfold compat_shim, shim_names, patches, bind, ret.
  repeat (destruct (patch _ _) as [[[]|?] ?]; try done).
Qed.

Lemma patches_ok names w st' :
  patch_all names (modules w) = Some st' →
  patches names w =
  (Ok tt, mkWorld (fs w) st' (stdout w) (trace w ++ map (EvSetAttr tf) names)).
Proof.
  revert w. induction names as [|name names IH]; intros w H.
  - simplify_eq/=. rewrite app_nil_r. by destruct w.
  - simpl in *. unfold bind. rewrite patch_run.
    destruct (patch_store name (modules w)) as [st1|]; [|done].
    rewrite (IH (mkWorld (fs w) st1 (stdout w) (trace w ++ [EvSetAttr tf name])) H).
    simpl. by rewrite <- app_assoc.
Qed.

(** However far a run of assignments gets, it has made a first part of
    them, in order, and nothing else. *)
Lemma patches_inv names w r w' :
  patches names w = (r, w') →
  fs w' = fs w ∧ stdout w' = stdout w ∧
  ∃ made, made `prefix_of` names ∧
    trace w' = trace w ++ map (EvSetAttr tf) made ∧
    patch_all made (modules w) = Some (modules w') ∧
    (is_ok r = true ↔ made = names).
Proof.
  revert w. induction names as [|name names IH]; intros w H.
  - unfold patches, ret in H. simplify_eq. do 2 (split; [done|]). exists []. simpl.
    rewrite app_nil_r. by repeat split.
  - simpl in H. unfold bind in H. rewrite patch_run in H.
    destruct (patch_store name (modules w)) as [st1|] eqn:H1.
    + apply IH in H as (Hfs & Hout & made & Hpre & Htr & Hall & Hok).
      simpl in *. do 2 (split; [done|]). exists (name :: made).
      split; [by apply prefix_cons|]. split; [by rewrite Htr, <- app_assoc|].
      simpl. rewrite H1. split; [done|]. rewrite Hok.
      split; [by intros ->|by intros [= ->]].
    + simplify_eq. do 2 (split; [done|]). exists [].
      split; [apply prefix_nil|]. simpl. rewrite app_nil_r.
      do 2 (split; [done|]). split; done.
Qed.

End Shim.

(** ** The confirmation as it is written *)

Lemma append_assoc (a b c : string) : (a +:+ b) +:+ c = a +:+ (b +:+ c).
Proof.
  induction a as [|x a IH]; [done|].
  change (String x ((a +:+ b) +:+ c) = String x (a +:+ (b +:+ c))). by f_equal.
Qed.



Lemma emit_confirmation out :
  emit out print_pieces = out +:+ confirmation +:+ newline.
Proof.
  unfold emit, print_pieces, confirmation. cbn [fold_left join].
  by rewrite !append_assoc.
Qed.

Section Stdout.

Variable fault : string → option exn.

Lemma write_pieces_ok l :
  Forall (λ s, fault s = None) l → write_pieces fault l = (l, None).
Proof.
  induction 1 as [|s l Hs _ IH]; [done|]. cbn [write_pieces]. by rewrite Hs, IH.
Qed.

Lemma write_pieces_None l sent :
  write_pieces fault l = (sent, None) →
  sent = l ∧ Forall (λ s, fault s = None) l.
Proof.
  revert sent. induction l as [|s l IH]; intros sent; cbn [write_pieces].
  - by intros [= <-].
  - destruct (fault s) eqn:Hs; [done|].
    destruct (write_pieces fault l) as [sent' r]. intros [= <- ->].
    destruct (IH _ eq_refl) as [-> Hall]. split; [done|]. by constructor.
Qed.

(** A write that raises comes after a first part of the strings, each of
    which was taken. *)
Lemma write_pieces_Some l sent e :
  write_pieces fault l = (sent, Some e) →
  ∃ s rest, l = sent ++ s :: rest ∧ fault s = Some e ∧
            Forall (λ s, fault s = None) sent.
Proof.
  revert sent. induction l as [|s l IH]; intros sent; cbn [write_pieces]; [done|].
  destruct (fault s) as [e'|] eqn:Hs.
  - intros [= <- ->]. by exists s, l.
  - destruct (write_pieces fault l) as [sent' r]. intros [= <- ->].
    destruct (IH _ eq_refl) as (s' & rest & -> & Hs' & Hall).
    exists s', rest. split; [done|]. split; [done|]. by constructor.
Qed.

Lemma write_pieces_Some_not_all l sent e :
  write_pieces fault l = (sent, Some e) → ¬ Forall (λ s, fault s = None) l.
Proof.
  intros H Hall. by rewrite (write_pieces_ok _ Hall) in H.
Qed.


(** The print of two arguments, as four writes. *)
Lemma print_run a b w :
  print fault [a; b] w =
  match write_pieces fault [a; " "; b; newline] with
  | (sent, r) =>
      (match r with Some e => Raise e | None => Ok tt end,
       mkWorld (fs w) (modules w) (emit (stdout w) sent)
         (trace w ++ [EvPrint (join " " [a; b])]))
  end.
Proof.
  unfold print, bind, stdout_write, ret, emit.
  cbn [write_args write_pieces bind ret]. unfold bind, stdout_write, ret.
  cbn [fs modules stdout trace record put_stdout].
  destruct (fault a); [done|]. cbn [fs modules stdout trace record put_stdout].
  destruct (fault " "); [done|]. cbn [fs modules stdout trace record put_stdout].
  destruct (fault b); [done|]. cbn [fs modules stdout trace record put_stdout].
  destruct (fault newline); [done|]. done.
Qed.

End Stdout.

(** ** The script as it runs *)

Section Run.

Context {Model TfRep Handle : Type}.
Variable env : Env Model TfRep Handle.
Implicit Types w : World.

(** Brings both sides of an equation between states to the same shape: the
    fields are computed and the traces associated to the right. *)
Ltac world_simpl :=
  unfold after_preamble, record, set_fs, set_modules, put_stdout;
  cbn [fs modules stdout trace];
  rewrite <- ?app_assoc; cbn [app]; rewrite ?app_nil_r.
Ltac unfold_events :=
  unfold script_events, write_events, convert_events, translate_events,
    preamble_events, shim_events, shim_names, confirmation in *;
  cbn [map app] in *.
Ltac world_eq :=
  world_simpl; try reflexivity;
  unfold_events; rewrite <- ?app_assoc; cbn [app]; try reflexivity.

Lemma import_run name w :
  import_ env name w =
  match import_fault env name (modules w) with
  | Some e => (Raise e, record (EvImport name) w)
  | None => (Ok tt, record (EvImport name) w)
  end.
Proof. reflexivity. Qed.

Lemma compat_shim_ok w st1 :
  shim_store (modules w) = Some st1 →
  compat_shim w = (Ok tt, mkWorld (fs w) st1 (stdout w) (trace w ++ shim_events)).
Proof. rewrite compat_shim_patches. apply patches_ok. Qed.

Lemma assigned_shim made : assigned (map (EvSetAttr tf) made) = pair tf <$> made.
Proof. induction made as [|name made IH]; [done|]. simpl. f_equal. exact IH. Qed.

Lemma prefix_map_shim made :
  made `prefix_of` shim_names →
  map (EvSetAttr tf) made `prefix_of` shim_events.
Proof. intros [k Hk]. unfold shim_events. rewrite Hk, map_app. by eexists. Qed.

Lemma preamble_ok w st1 :
  Started env w st1 → preamble env w = (Ok tt, after_preamble w st1 (fs w) []).
Proof.
  intros [H1 H2 H3 H4 H5]. unfold preamble, bind.
  rewrite import_run, H1, import_run. cbn [modules record]. rewrite H2.
  erewrite compat_shim_ok by exact H3.
  rewrite import_run. cbn [modules record]. rewrite H4.
  rewrite import_run. cbn [modules record]. rewrite H5.
  unfold after_preamble, preamble_events. world_eq.
Qed.

(** However the preamble ends, it has changed neither a file nor the
    output, has made a first part of its calls and has assigned a first part
    of the five names, each from the math module. *)
Lemma preamble_inv w r w1 :
  preamble env w = (r, w1) →
  fs w1 = fs w ∧ stdout w1 = stdout w ∧
  ∃ t made,
    trace w1 = trace w ++ t ∧ t `prefix_of` preamble_events ∧
    assigned t = pair tf <$> made ∧ made `prefix_of` shim_names ∧
    patch_all made (modules w) = Some (modules w1) ∧
    (is_ok r = true → Started env w (modules w1) ∧ t = preamble_events).
Proof.
  unfold preamble, bind. rewrite import_run.
  destruct (import_fault env "onnx" (modules w)) as [e1|] eqn:H1.
  { intros [= <- <-]. world_simpl. do 2 (split; [done|]).
    exists [EvImport "onnx"], [].
    repeat split; try done; [by eexists|apply prefix_nil]. }
  rewrite import_run. cbn [modules record].
  destruct (import_fault env tf (modules w)) as [e2|] eqn:H2.
  { intros [= <- <-]. world_simpl. do 2 (split; [done|]).
    exists [EvImport "onnx"; EvImport tf], [].
    repeat split; try done; [by eexists|apply prefix_nil]. }
  destruct (compat_shim _) as [r3 w3] eqn:H3.
  rewrite compat_shim_patches in H3.
  apply patches_inv in H3 as (Hfs & Hout & made & Hpre & Htr & Hall & Hok).
  revert Hfs Hout Htr Hall. world_simpl. intros Hfs Hout Htr Hall.
  destruct r3 as [[]|e3].
  2:{ intros [= <- <-]. do 2 (split; [done|]).
      exists ([EvImport "onnx"; EvImport tf] ++ map (EvSetAttr tf) made), made.
      split; [done|]. split; [|split; [|done]].
      - unfold preamble_events. apply prefix_app, prefix_app_r, prefix_map_shim, Hpre.
      - simpl. by rewrite assigned_shim. }
  assert (made = shim_names) as -> by (by apply Hok).
  rewrite import_run.
  destruct (import_fault env "onnx_tf.backend" (modules w3)) as [e4|] eqn:H4.
  { intros [= <- <-]. world_simpl. do 2 (split; [done|]).
    exists ([EvImport "onnx"; EvImport tf] ++ shim_events ++ [EvImport "onnx_tf.backend"]),
      shim_names.
    rewrite Htr. repeat split; try done; [world_eq|].
    exists [EvImport "os"]. reflexivity. }
  rewrite import_run. cbn [modules record].
  destruct (import_fault env "os" (modules w3)) as [e5|] eqn:H5;
    intros [= <- <-]; world_simpl; (do 2 (split; [done|]));
    exists preamble_events, shim_names; rewrite Htr;
    repeat split; try done; world_eq.
Qed.

(** The stages, each as one equation in the collaborators' answers. *)

Lemma load_model_run w :
  load_model env w = (onnx_load env model_file (fs w), record (EvLoad model_path) w).
Proof. reflexivity. Qed.

Lemma to_saved_model_run m w :
  to_saved_model env m w =
  match prepare env (modules w) m false with
  | Raise e => (Raise e, record (EvPrepare false) w)
  | Ok rep =>
      match export_graph env rep export_at (FS.remove_tree export_at (fs w)) with
      | (r, n2) =>
          (r, mkWorld n2 (modules w) (stdout w)
                (trace w ++ [EvPrepare false] ++ rmtree_events (present w) ++
                 [EvExportGraph export_dir]))
      end
  end.
Proof.
  unfold to_saved_model, bind, prepare_, os_path_exists, export_graph_, present.
  cbn [fs modules stdout trace record].
  destruct (prepare env (modules w) m false) as [rep|e]; [|done].
  destruct (FS.exists_ export_at (fs w)) eqn:Hex.
  - unfold gfile_rmtree. cbn [fs modules stdout trace record set_fs].
    rewrite Hex. cbn [fs modules stdout trace record set_fs].
    destruct (export_graph env rep export_at _) as [r n2]. world_eq.
  - unfold ret. rewrite FSFacts.remove_tree_absent.
    + destruct (export_graph env rep export_at _) as [r n2]. world_eq.
    + unfold FS.exists_ in Hex. by destruct (FS.walk export_at (fs w)).
Qed.

Lemma to_tflite_run w :
  to_tflite env w =
  match from_saved_model env export_at (fs w) with
  | Raise e => (Raise e, record (EvFromSavedModel export_dir) w)
  | Ok h =>
      (convert env (mkConverter h [DEFAULT]) (fs w),
       mkWorld (fs w) (modules w) (stdout w) (trace w ++ convert_events))
  end.
Proof.
  unfold to_tflite, bind, from_saved_model_, convert_, set_optimizations.
  cbn [fs modules stdout trace record].
  destruct (from_saved_model env export_at (fs w)) as [h|e]; [|done].
  cbn [conv_handle optimizations]. world_eq.
Qed.

(** Once the file is open the write goes through, so the stage fails only
    where [open] does, and it leaves the bytes it was given. *)
Lemma write_out_run b w :
  write_out b w =
  match FS.write_file out_at b (fs w) with
  | Some n3 => (Ok tt, mkWorld n3 (modules w) (stdout w) (trace w ++ write_events))
  | None => (Raise (PyExn "OSError" out_path), record (EvOpen out_path "wb") w)
  end.
Proof.
  unfold write_out, with_open_wb, bind, open_wb, finally, file_write.
  cbn [fs modules stdout trace record set_fs].
  destruct (FS.write_file out_at [] (fs w)) as [n|] eqn:H0.
  - cbn [fs modules stdout trace record set_fs].
    rewrite (FSFacts.walk_write_file _ _ _ _ H0).
    rewrite (FSFacts.write_file_twice _ _ _ _ _ H0). simpl app.
    destruct (FSFacts.write_file_is_Some out_at [] b (fs w)) as [n3 ->];
      [by eexists|]. world_eq.
  - destruct (FS.write_file out_at b (fs w)) as [n3|] eqn:Hb; [|done].
    destruct (FSFacts.write_file_is_Some out_at b [] (fs w)) as [n Hn];
      [by eexists|]. congruence.
Qed.

(** Every run ends in one of the nine ways. *)
Lemma main_outcome w r w' : main env w = (r, w') → Outcome env w r w'.
Proof.
  unfold main, bind. destruct (preamble env w) as [[[]|e] w1] eqn:Hp.
  2:{ intros [= <- <-]. by apply halt_preamble. }
  destruct (preamble_inv _ _ _ Hp) as (_ & _ & t & made & _ & _ & _ & _ & _ & Hok).
  destruct (Hok eq_refl) as [Hst _]. clear t made Hok.
  remember (modules w1) as st1 eqn:Hst1. clear Hst1.
  rewrite (preamble_ok _ _ Hst) in Hp. injection Hp as <-.
  rewrite load_model_run. cbn [fs after_preamble].
  destruct (onnx_load env model_file (fs w)) as [m|e] eqn:Hload.
  2:{ intros [= <- <-]. eapply eq_ind; [by eapply halt_load|]. world_eq. }
  rewrite to_saved_model_run. cbn [fs modules stdout trace record after_preamble].
  destruct (prepare env st1 m false) as [rep|e] eqn:Hprep.
  2:{ intros [= <- <-]. eapply eq_ind; [by eapply halt_prepare|]. world_eq. }
  change (FS.exists_ export_at (fs w)) with (present w).
  destruct (export_graph env rep export_at _) as [[[]|e] n2] eqn:Hexp.
  2:{ intros [= <- <-]. eapply eq_ind; [by eapply halt_export|].
      unfold after_preamble, translate_events, present. world_eq. }
  assert (Exported env w st1 m rep n2) as Hexported by done.
  rewrite to_tflite_run. cbn [fs modules stdout trace].
  destruct (from_saved_model env export_at n2) as [h|e] eqn:Hfsm.
  2:{ intros [= <- <-]. eapply eq_ind; [by eapply halt_from_saved_model|].
      unfold after_preamble, translate_events, present. world_eq. }
  destruct (convert env (mkConverter h [DEFAULT]) n2) as [b|e] eqn:Hconv.
  2:{ intros [= <- <-]. eapply eq_ind; [by eapply halt_convert|].
      unfold after_preamble, translate_events, convert_events, present. world_eq. }
  assert (Converted env w st1 m rep n2 h b) as Hconverted by done.
  rewrite write_out_run. cbn [fs modules stdout trace].
  destruct (FS.write_file out_at b n2) as [n3|] eqn:Hwrite.
  2:{ intros [= <- <-]. eapply eq_ind; [by eapply halt_open|].
      unfold after_preamble, translate_events, convert_events, present. world_eq. }
  rewrite print_run. change [success_message; " "; out_path; newline] with print_pieces.
  cbn [fs modules stdout trace].
  destruct (write_pieces (stdout_fault env) print_pieces) as [sent [e|]] eqn:Hpr.
  - intros [= <- <-]. eapply eq_ind; [by eapply halt_print|].
    unfold script_events, translate_events, convert_events, write_events,
      confirmation, present. world_eq.
  - apply write_pieces_None in Hpr as [-> Hpr]. rewrite emit_confirmation.
    intros [= <- <-]. eapply eq_ind; [by eapply finished|].
    unfold script_events, translate_events, convert_events, write_events,
      confirmation, present. world_eq.
Qed.

(** Conversely, each of the nine ways determines the run. *)
Lemma outcome_main w r w' : Outcome env w r w' → main env w = (r, w').
Proof.
  assert (∀ st1, Started env w st1 →
    main env w =
    match onnx_load env model_file (fs w) with
    | Raise e => (Raise e, after_preamble w st1 (fs w) [EvLoad model_path])
    | Ok m =>
        match prepare env st1 m false with
        | Raise e =>
            (Raise e, after_preamble w st1 (fs w) [EvLoad model_path; EvPrepare false])
        | Ok rep =>
            match export_graph env rep export_at (FS.remove_tree export_at (fs w)) with
            | (Raise e, n2) =>
                (Raise e, after_preamble w st1 n2 (translate_events (present w)))
            | (Ok _, n2) =>
                match from_saved_model env export_at n2 with
                | Raise e =>
                    (Raise e, after_preamble w st1 n2
                       (translate_events (present w) ++ [EvFromSavedModel export_dir]))
                | Ok h =>
                    match convert env (mkConverter h [DEFAULT]) n2 with
                    | Raise e =>
                        (Raise e, after_preamble w st1 n2
                           (translate_events (present w) ++ convert_events))
                    | Ok b =>
                        match FS.write_file out_at b n2 with
                        | None =>
                            (Raise (PyExn "OSError" out_path),
                             after_preamble w st1 n2
                               (translate_events (present w) ++ convert_events ++
                                [EvOpen out_path "wb"]))
                        | Some n3 =>
                            match write_pieces (stdout_fault env) print_pieces with
                            | (sent, Some e) =>
                                (Raise e,
                                 mkWorld n3 st1 (emit (stdout w) sent)
                                   (trace w ++ script_events (present w)))
                            | (sent, None) =>
                                (Ok tt,
                                 mkWorld n3 st1 (stdout w +:+ confirmation +:+ newline)
                                   (trace w ++ script_events (present w)))
                            end
                        end
                    end
                end
            end
        end
    end) as Hrun.
  { intros st1 Hst. unfold main, bind, present. rewrite (preamble_ok _ _ Hst).
    rewrite load_model_run. cbn [fs after_preamble].
    destruct (onnx_load env model_file (fs w)) as [m|e]; [|world_eq].
    rewrite to_saved_model_run. unfold present.
    cbn [fs modules stdout trace record after_preamble].
    destruct (prepare env st1 m false) as [rep|e]; [|world_eq].
    destruct (export_graph env rep export_at _) as [[[]|e] n2]; [|world_eq].
    rewrite to_tflite_run. cbn [fs modules stdout trace].
    destruct (from_saved_model env export_at n2) as [h|e]; [|world_eq].
    destruct (convert env (mkConverter h [DEFAULT]) n2) as [b|e]; [|world_eq].
    rewrite write_out_run. cbn [fs modules stdout trace].
    destruct (FS.write_file out_at b n2) as [n3|]; [|world_eq].
    rewrite print_run. change [success_message; " "; out_path; newline] with print_pieces.
    cbn [fs modules stdout trace].
    destruct (write_pieces (stdout_fault env) print_pieces) as [sent [e|]] eqn:Hpr;
      [world_eq|].
    apply write_pieces_None in Hpr as [-> Hpr]. rewrite emit_confirmation. world_eq. }
  intros [e w1 Hp
         |st1 e Hst Hl
         |st1 m e Hst Hl Hp
         |st1 m rep e n2 Hst Hl Hp He
         |st1 m rep n2 e [Hst Hl Hp He] Hf
         |st1 m rep n2 h e [Hst Hl Hp He] Hf Hc
         |st1 m rep n2 h b [[Hst Hl Hp He] Hf Hc] Hw
         |st1 m rep n2 h b n3 sent e [[Hst Hl Hp He] Hf Hc] Hw Hpr
         |st1 m rep n2 h b n3 [[Hst Hl Hp He] Hf Hc] Hw Hpr].
  { unfold main, bind. by rewrite Hp. }
  all: rewrite (Hrun _ Hst), Hl; try done.
  all: rewrite Hp; try done.
  all: rewrite He; try done.
  all: rewrite Hf; try done.
  all: rewrite Hc; try done.
  all: rewrite Hw; try done.
  - by rewrite Hpr.
  - by rewrite (write_pieces_ok _ _ Hpr).
Qed.

Lemma main_iff w r w' : main env w = (r, w') ↔ Outcome env w r w'.
Proof. split; [apply main_outcome | apply outcome_main]. Qed.

(** What every run has in common: its calls are a first part of the calls
    of a complete run, all of them when it succeeds; the names it has
    assigned are a first part of the five, and the module store it leaves is
    the start store with exactly those assigned; a run that stops before the
    confirmation has printed nothing. *)
Lemma run_summary w r w' :
  main env w = (r, w') →
  ∃ t made,
    trace w' = trace w ++ t ∧
    t `prefix_of` script_events (present w) ∧
    (is_ok r = true → t = script_events (present w)) ∧
    made `prefix_of` shim_names ∧
    assigned t = pair tf <$> made ∧
    patch_all made (modules w) = Some (modules w') ∧
    (t ≠ script_events (present w) → stdout w' = stdout w).
Proof.
  intros Hrun. apply main_outcome in Hrun.
  destruct Hrun as [e w1 Hp
         |st1 e Hst Hl
         |st1 m e Hst Hl Hp
         |st1 m rep e n2 Hst Hl Hp He
         |st1 m rep n2 e [Hst Hl Hp He] Hf
         |st1 m rep n2 h e [Hst Hl Hp He] Hf Hc
         |st1 m rep n2 h b [[Hst Hl Hp He] Hf Hc] Hw
         |st1 m rep n2 h b n3 sent e [[Hst Hl Hp He] Hf Hc] Hw Hpr
         |st1 m rep n2 h b n3 [[Hst Hl Hp He] Hf Hc] Hw Hpr].
  { destruct (preamble_inv _ _ _ Hp)
      as (_ & Hout & t & made & Htr & Hpre & Has & Hmade & Hall & _).
    exists t, made. repeat split; try done.
    unfold script_events. by apply prefix_app_r. }
  all: pose proof (shim_ok _ _ _ Hst) as Hshim; unfold shim_store in Hshim.
  all: eexists _, shim_names; unfold after_preamble; cbn [trace stdout modules].
  all: split; [reflexivity|].
  all: split; [unfold script_events; apply prefix_app;
               destruct (present w); by eexists|].
  all: split; [try done|].
  all: split; [done|].
  all: split; [destruct (present w); reflexivity|].
  all: split; [done|]; try done.
Qed.

End Run.

(** ** Where the calls stand in a complete run *)

Ltac by_position H i :=
  first
    [ discriminate H
    | let i' := fresh "i" in
      destruct i as [|i']; cbn [lookup list_lookup] in H;
      [ try discriminate H; try (injection H as ?)
      | by_position H i' ] ].




Lemma script_events_rmtree b i p :
  script_events b !! i = Some (EvRmtree p) → b = true ∧ i = 11 ∧ p = export_dir.
Proof. intros H. destruct b; vm_compute in H; by_position H i; subst; done. Qed.

Lemma script_events_export b j p :
  script_events b !! j = Some (EvExportGraph p) →
  j = (if b then 12 else 11) ∧ p = export_dir.
Proof. intros H. destruct b; vm_compute in H; by_position H j; subst; done. Qed.



(** Membership in a list that is written out. *)
Ltac in_list_inv H :=
  vm_compute in H;
  repeat (apply elem_of_cons in H; destruct H as [H|H]; [try discriminate H|]);
  try (by apply elem_of_nil in H).

(** ** The paths of the script *)



Lemma export_apart_out : FS.apart export_at out_at.
Proof. apply (bool_decide_unpack _). vm_compute. exact I. Qed.

Lemma export_apart_model : FS.apart export_at model_file.
Proof. apply (bool_decide_unpack _). vm_compute. exact I. Qed.


(** The confirmation ends with the output path. *)
Lemma confirmation_has_out_path :
  confirmation = success_message +:+ " " +:+ out_path.
Proof. reflexivity. Qed.

Lemma in_file_writes t ev :
  ev ∈ t → is_file_write ev = true → ev ∈ file_writes t.
Proof.
  intros Hin Hw. apply list_elem_of_In, filter_In.
  split; [by apply list_elem_of_In|done].
Qed.

(** ** The instance passes every stage *)

Lemma demo_exported cf :
  Exported (Demo.demo_env false cf) (Demo.world Demo.fs0) Demo.st1
    Demo.model_bytes Demo.model_bytes Demo.exported.
Proof. split; [split|..]; vm_compute; reflexivity. Qed.

Lemma demo_converted :
  Converted (Demo.demo_env false false) (Demo.world Demo.fs0) Demo.st1
    Demo.model_bytes Demo.model_bytes Demo.exported Demo.model_bytes Demo.artifact.
Proof. split; [apply demo_exported|..]; vm_compute; reflexivity. Qed.

Lemma demo_written : FS.write_file out_at Demo.artifact Demo.exported = Some Demo.final.
Proof. vm_compute. reflexivity. Qed.

(** The exporter of the instance writes at its own path only. *)
Lemma demo_export_leaves_artifact rep n r n' :
  Demo.demo_export rep export_at n = (r, n') →
  FS.walk out_at n' = FS.walk out_at n.
Proof.
  unfold Demo.demo_export.
  destruct (FS.put export_at _ n) as [n1|] eqn:Hput; intros [= <- <-]; [|done].
  eapply FSFacts.walk_put_apart; [exact Hput|apply export_apart_out].
Qed.


Lemma demo_printable sf cf : Printable (Demo.demo_env sf cf).
Proof. by repeat constructor. Qed.



(** * The properties of the script *)

(** C1. When the loader raises, as it does when the model file is missing,
    the run fails, the file system is left exactly as it was (so the
    intermediate directory is untouched and nothing, not even a partial
    artifact, is written at the output path), and no call past the load (no
    removal, export, conversion or write) is made. *)
Theorem load_failure_stops_before_export
    {Model TfRep Handle : Type} (env : Env Model TfRep Handle) w e r w' :
  onnx_load env model_file (fs w) = Raise e →
  main env w = (r, w') →
  (∃ e', r = Raise e') ∧
  fs w' = fs w ∧
  new_events w w' `prefix_of` preamble_events ++ [EvLoad model_path] ∧
  Forall (λ ev, past_load ev = false) (new_events w w').
Proof.
  intros Hload Hrun.
  assert (Forall (λ ev, past_load ev = false) (preamble_events ++ [EvLoad model_path]))
    as Hall by (by repeat constructor).
  assert (∀ t, t `prefix_of` preamble_events ++ [EvLoad model_path] →
               Forall (λ ev, past_load ev = false) t) as Hsub.
  { intros t [k Hk]. rewrite Hk in Hall. by apply Forall_app in Hall as [? _]. }
  apply main_outcome in Hrun.
  destruct Hrun as [e1 w1 Hp
         |st1 e1 Hst Hl
         |st1 m e1 Hst Hl Hp
         |st1 m rep e1 n2 Hst Hl Hp He
         |st1 m rep n2 e1 [Hst Hl Hp He] Hf
         |st1 m rep n2 h e1 [Hst Hl Hp He] Hf Hc
         |st1 m rep n2 h b [[Hst Hl Hp He] Hf Hc] Hw
         |st1 m rep n2 h b n3 sent e1 [[Hst Hl Hp He] Hf Hc] Hw Hpr
         |st1 m rep n2 h b n3 [[Hst Hl Hp He] Hf Hc] Hw Hpr];
    try congruence.
  - destruct (preamble_inv _ _ _ _ Hp)
      as (Hfs & _ & t & made & Htr & Hpre & _).
    rewrite (new_events_app _ _ _ Htr).
    assert (t `prefix_of` preamble_events ++ [EvLoad model_path])
      by (by apply prefix_app_r).
    split; [by eexists|]. split; [done|]. split; [done|]. by apply Hsub.
  - rewrite (new_events_app _ _ (preamble_events ++ [EvLoad model_path]))
      by reflexivity.
    split; [by eexists|]. split; [done|]. split; [done|]. by apply Hsub.
Qed.

(** The model file is missing: the run raises the loader's error after the
    preamble and the load call, and the old artifact is still in place. *)
Lemma load_failure_witness :
  (∃ e', (main (Demo.demo_env false false) (Demo.world Demo.fs_no_model)).1 = Raise e') ∧
  fs (main (Demo.demo_env false false) (Demo.world Demo.fs_no_model)).2 = Demo.fs_no_model ∧
  new_events (Demo.world Demo.fs_no_model)
    (main (Demo.demo_env false false) (Demo.world Demo.fs_no_model)).2
    `prefix_of` preamble_events ++ [EvLoad model_path] ∧
  Forall (λ ev, past_load ev = false)
    (new_events (Demo.world Demo.fs_no_model)
       (main (Demo.demo_env false false) (Demo.world Demo.fs_no_model)).2).
Proof.
  apply (load_failure_stops_before_export (Demo.demo_env false false)
           (Demo.world Demo.fs_no_model) (PyExn "FileNotFoundError" "")).
  - vm_compute. reflexivity.
  - apply surjective_pairing.
Defined.

(** C2, as stated, fails on the count: the patch assigns five names, not
    four.  On the instance the patch succeeds and the trace has five
    assignments. *)
Lemma shim_assigns_five_not_four :
  (compat_shim (Demo.world Demo.fs0)).1 = Ok tt ∧
  length (assigned (new_events (Demo.world Demo.fs0)
                      (compat_shim (Demo.world Demo.fs0)).2)) ≠ 4.
Proof. split; [vm_compute; reflexivity|]. vm_compute. lia. Qed.

(** C2, amended. When [tf.math] is a module that has the five functions, the
    patch runs to its end, it makes exactly five assignments, to [tf.ceil],
    [tf.floor], [tf.abs], [tf.sin] and [tf.cos] in this order, and afterwards
    each of these top-level names is bound to the very object the math
    module has under that name. *)
Theorem shim_rebinds_five w math :
  attr (modules w) tf "math" = Some (PyModule math) →
  (∀ name, name ∈ shim_names → is_Some (attr (modules w) math name)) →
  ∃ w', compat_shim w = (Ok tt, w') ∧
        new_events w w' = EvSetAttr tf <$> shim_names ∧
        length shim_names = 5 ∧
        ∀ name, name ∈ shim_names → rebound (modules w') math name.
Proof.
  intros Hmath Hall.
  assert ("math" ∉ shim_names) as Hne
    by (apply (bool_decide_unpack _); vm_compute; exact I).
  destruct (patch_all_total shim_names (modules w) math Hne Hmath Hall)
    as [st1 Hst1].
  eexists. split; [by apply compat_shim_ok|].
  split; [by apply new_events_app|]. split; [done|].
  intros name Hin. cbn [modules].
  by eapply patch_all_rebound.
Qed.

Lemma shim_rebinds_five_witness :
  ∃ w', compat_shim (Demo.world Demo.fs0) = (Ok tt, w') ∧
        new_events (Demo.world Demo.fs0) w' = EvSetAttr tf <$> shim_names ∧
        length shim_names = 5 ∧
        ∀ name, name ∈ shim_names → rebound (modules w') "tensorflow.math" name.
Proof.
  apply (shim_rebinds_five (Demo.world Demo.fs0) "tensorflow.math").
  - vm_compute. reflexivity.
  - intros name Hin. unfold shim_names in Hin.
    repeat (apply elem_of_cons in Hin; destruct Hin as [->|Hin]);
      [vm_compute; eexists; reflexivity ..|].
    by apply elem_of_nil in Hin.
Defined.

(** C10. However the patch ends, it has touched nothing but the five names
    [ceil], [floor], [abs], [sin], [cos] of the tensorflow top level: the
    file system and the output are as they were, every other module is as it
    was, every other attribute of the top level is as it was, and the calls
    made are assignments to a first part of the five names, all five when
    the patch succeeds. *)
Theorem shim_frame w r w' :
  compat_shim w = (r, w') →
  fs w' = fs w ∧ stdout w' = stdout w ∧
  (∀ ref, ref ≠ tf → modules w' !! ref = modules w !! ref) ∧
  (∀ ref name, ¬ (ref = tf ∧ name ∈ shim_names) →
     attr (modules w') ref name = attr (modules w) ref name) ∧
  (∃ made, made `prefix_of` shim_names ∧
           new_events w w' = EvSetAttr tf <$> made ∧
           (is_ok r = true → made = shim_names)) ∧
  shim_names = ["ceil"; "floor"; "abs"; "sin"; "cos"].
Proof.
  rewrite compat_shim_patches. intros Hrun.
  apply patches_inv in Hrun as (Hfs & Hout & made & Hpre & Htr & Hall & Hok).
  do 2 (split; [done|]).
  split; [intros ref Href; by eapply patch_all_other_module|].
  split.
  - intros ref name Hne. eapply patch_all_frame; [done|].
    intros -> Hin. apply Hne. split; [done|].
    destruct Hpre as [k ->]. apply elem_of_app. by left.
  - split; [|done]. exists made. split; [done|].
    split; [by apply new_events_app|]. apply Hok.
Qed.

Lemma shim_frame_witness :
  fs (compat_shim (Demo.world Demo.fs0)).2 = fs (Demo.world Demo.fs0) ∧
  stdout (compat_shim (Demo.world Demo.fs0)).2 = stdout (Demo.world Demo.fs0) ∧
  (∀ ref, ref ≠ tf →
     modules (compat_shim (Demo.world Demo.fs0)).2 !! ref =
     modules (Demo.world Demo.fs0) !! ref) ∧
  (∀ ref name, ¬ (ref = tf ∧ name ∈ shim_names) →
     attr (modules (compat_shim (Demo.world Demo.fs0)).2) ref name =
     attr (modules (Demo.world Demo.fs0)) ref name) ∧
  (∃ made, made `prefix_of` shim_names ∧
           new_events (Demo.world Demo.fs0) (compat_shim (Demo.world Demo.fs0)).2 =
           EvSetAttr tf <$> made ∧
           (is_ok (compat_shim (Demo.world Demo.fs0)).1 = true → made = shim_names)) ∧
  shim_names = ["ceil"; "floor"; "abs"; "sin"; "cos"].
Proof.
  apply (shim_frame (Demo.world Demo.fs0)). apply surjective_pairing.
Defined.




(** C3, as stated, fails where it says that no deletion is performed when no
    directory exists at the export path: the script asks whether anything
    exists there.  With a regular file at the path there is no directory,
    and the removal is called and takes the file away. *)
Lemma rmtree_called_without_directory :
  is_dir_at export_at (fs (Demo.world Demo.fs_file_at_export)) = false ∧
  FS.walk export_at (fs (Demo.world Demo.fs_file_at_export)) =
    Some (FS.File Demo.stale_bytes) ∧
  EvRmtree export_dir ∈
    new_events (Demo.world Demo.fs_file_at_export)
      (main (Demo.demo_env false false) (Demo.world Demo.fs_file_at_export)).2 ∧
  FS.walk export_at
    (FS.remove_tree export_at (fs (Demo.world Demo.fs_file_at_export))) = None.
Proof.
  split; [vm_compute; reflexivity|]. split; [vm_compute; reflexivity|].
  split; [|vm_compute; reflexivity].
  apply (bool_decide_unpack _). vm_compute. exact I.
Qed.

(** C3, amended. In a run that reaches the export, the exporter is handed
    the start tree with the export path removed: nothing is at or below the
    export path in it, whatever was there before (a directory with its
    files, or a regular file), and every path apart from the export path is
    as it was.  The file system at the end of the run is what the exporter
    left, with at most the artifact written into it.  When something exists
    at the export path at the start, the removal is called before the
    export; when nothing exists there, no removal is called. *)
Theorem export_path_cleared
    {Model TfRep Handle : Type} (env : Env Model TfRep Handle) w r w' :
  main env w = (r, w') →
  EvExportGraph export_dir ∈ new_events w w' →
  (∃ st1 m rep res n2,
     Started env w st1 ∧
     onnx_load env model_file (fs w) = Ok m ∧
     prepare env st1 m false = Ok rep ∧
     export_graph env rep export_at (FS.remove_tree export_at (fs w)) = (res, n2) ∧
     (fs w' = n2 ∨ ∃ b, FS.write_file out_at b n2 = Some (fs w'))) ∧
  (∀ q, FS.walk (export_at ++ q) (FS.remove_tree export_at (fs w)) = None) ∧
  (∀ q, FS.apart export_at q →
        FS.walk q (FS.remove_tree export_at (fs w)) = FS.walk q (fs w)) ∧
  (FS.exists_ export_at (fs w) = true →
     ∃ i j, i < j ∧
       new_events w w' !! i = Some (EvRmtree export_dir) ∧
       new_events w w' !! j = Some (EvExportGraph export_dir)) ∧
  (FS.exists_ export_at (fs w) = false →
     (∀ p, EvRmtree p ∉ new_events w w') ∧
     FS.remove_tree export_at (fs w) = fs w).
Proof.
  intros Hrun Hin.
  destruct (run_summary env _ _ _ Hrun) as (t & made & Htr & Hpre & _).
  rewrite (new_events_app _ _ _ Htr) in *.
  split; [|split; [|split; [|split]]].
  - apply main_outcome in Hrun.
    destruct Hrun as [e w1 Hp
         |st1 e Hst Hl
         |st1 m e Hst Hl Hp
         |st1 m rep e n2 Hst Hl Hp He
         |st1 m rep n2 e [Hst Hl Hp He] Hf
         |st1 m rep n2 h e [Hst Hl Hp He] Hf Hc
         |st1 m rep n2 h b [[Hst Hl Hp He] Hf Hc] Hw
         |st1 m rep n2 h b n3 sent e [[Hst Hl Hp He] Hf Hc] Hw Hpr
         |st1 m rep n2 h b n3 [[Hst Hl Hp He] Hf Hc] Hw Hpr].
    + destruct (preamble_inv _ _ _ _ Hp) as (_ & _ & t1 & _ & Htr1 & [k Hk] & _).
      assert (t1 = t) as -> by (by eapply app_inv_head; rewrite <- Htr, <- Htr1).
      assert (EvExportGraph export_dir ∈ preamble_events) as Hin'
        by (rewrite Hk; apply elem_of_app; by left).
      in_list_inv Hin'.
    + apply app_inv_head in Htr. subst t. in_list_inv Hin.
    + apply app_inv_head in Htr. subst t. in_list_inv Hin.
    + exists st1, m, rep, (Raise e), n2. do 4 (split; [done|]). by left.
    + exists st1, m, rep, (Ok tt), n2. do 4 (split; [done|]). by left.
    + exists st1, m, rep, (Ok tt), n2. do 4 (split; [done|]). by left.
    + exists st1, m, rep, (Ok tt), n2. do 4 (split; [done|]). by left.
    + exists st1, m, rep, (Ok tt), n2. do 4 (split; [done|]).
      right. by exists b.
    + exists st1, m, rep, (Ok tt), n2. do 4 (split; [done|]).
      right. by exists b.
  - intros q. apply FSFacts.walk_remove_tree_below. by vm_compute.
  - intros q Hq. by apply FSFacts.walk_remove_tree_apart.
  - intros Hex. apply list_elem_of_lookup in Hin as [j Hj].
    pose proof (lookup_lt_Some _ _ _ Hj) as Hlen.
    pose proof (prefix_lookup_Some _ _ _ _ Hj Hpre) as Hj'.
    apply script_events_export in Hj' as [-> _].
    unfold present in *. rewrite Hex in *. cbn [negb] in *.
    assert (11 < length t) as Hlen' by lia.
    exists 11, 12. split; [lia|]. split; [|done].
    by rewrite (prefix_lookup_lt _ _ 11 Hlen' Hpre).
  - intros Hex. split.
    + intros p Hp. apply list_elem_of_lookup in Hp as [i Hi].
      eapply prefix_lookup_Some in Hi; [|exact Hpre].
      apply script_events_rmtree in Hi as [Hb _].
      unfold present in Hb. congruence.
    + apply FSFacts.remove_tree_absent.
      unfold FS.exists_ in Hex. by destruct (FS.walk export_at (fs w)).
Qed.

(** A stale directory with a stale file: the run reaches the export, the
    removal comes first, and the stale file is not in the tree the exporter
    starts from. *)
Lemma export_path_cleared_witness :
  FS.walk (export_at ++ ["stale.bin"]) Demo.fs0 = Some (FS.File Demo.stale_bytes) ∧
  FS.walk (export_at ++ ["stale.bin"]) (FS.remove_tree export_at Demo.fs0) = None ∧
  FS.exists_ export_at Demo.fs0 = true ∧
  ∃ i j, i < j ∧
    new_events (Demo.world Demo.fs0)
      (main (Demo.demo_env false false) (Demo.world Demo.fs0)).2 !! i =
      Some (EvRmtree export_dir) ∧
    new_events (Demo.world Demo.fs0)
      (main (Demo.demo_env false false) (Demo.world Demo.fs0)).2 !! j =
      Some (EvExportGraph export_dir).
Proof.
  split; [vm_compute; reflexivity|].
  destruct (export_path_cleared (Demo.demo_env false false) (Demo.world Demo.fs0)
              (main (Demo.demo_env false false) (Demo.world Demo.fs0)).1
              (main (Demo.demo_env false false) (Demo.world Demo.fs0)).2)
    as (_ & Hbelow & _ & Hrm & _).
  - apply surjective_pairing.
  - apply (bool_decide_unpack _). vm_compute. exact I.
  - split; [apply Hbelow|]. split; [vm_compute; reflexivity|].
    apply Hrm. vm_compute. reflexivity.
Defined.

(** C5. When every stage is passed (the collaborators return and the output
    path can be written), the run leaves at the output path a regular file
    holding exactly the bytes the conversion returned, whatever was at that
    path before; it opens one file for writing and writes to it once, and
    changes nothing else in the tree the exporter left: every path that is
    neither the output path nor a directory above it is as it was.  All this
    holds whether or not the confirmation can be printed afterwards; the run
    succeeds exactly when the standard output takes the confirmation. *)
Theorem successful_run_writes_artifact
    {Model TfRep Handle : Type} (env : Env Model TfRep Handle)
    w st1 m rep n2 h b n3 :
  Converted env w st1 m rep n2 h b →
  FS.write_file out_at b n2 = Some n3 →
  ∃ r w', main env w = (r, w') ∧
    (r = Ok tt ↔ Printable env) ∧
    fs w' = n3 ∧
    FS.walk out_at (fs w') = Some (FS.File b) ∧
    (∀ q, ¬ q `prefix_of` out_at → FS.walk q (fs w') = FS.walk q n2) ∧
    file_writes (new_events w w') = [EvOpen out_path "wb"; EvWrite out_path].
Proof.
  intros Hconv Hw.
  assert (∀ out,
    let w' := mkWorld n3 st1 out (trace w ++ script_events (present w)) in
    fs w' = n3 ∧
    FS.walk out_at (fs w') = Some (FS.File b) ∧
    (∀ q, ¬ q `prefix_of` out_at → FS.walk q (fs w') = FS.walk q n2) ∧
    file_writes (new_events w w') = [EvOpen out_path "wb"; EvWrite out_path])
    as Hleft.
  { intros out. cbn [fs]. split; [done|].
    split; [by eapply FSFacts.walk_write_file|].
    split; [intros q Hq; by eapply FSFacts.walk_write_file_other|].
    rewrite (new_events_app _ _ (script_events (present w))) by reflexivity.
    by destruct (present w). }
  destruct (write_pieces (stdout_fault env) print_pieces) as [sent [e|]] eqn:Hpr.
  - eexists (Raise e), _. split.
    { apply outcome_main. by eapply halt_print. }
    split; [|apply Hleft]. split; [done|].
    intros Hall. by apply write_pieces_Some_not_all in Hpr.
  - apply write_pieces_None in Hpr as [_ Hpr].
    eexists (Ok tt), _. split.
    { apply outcome_main. by eapply finished. }
    split; [done|apply Hleft].
Qed.

(** On the instance the artifact replaces the old one and holds the bytes of
    the conversion, and the run succeeds. *)
Lemma successful_run_writes_artifact_witness :
  FS.walk out_at Demo.fs0 = Some (FS.File Demo.old_artifact) ∧
  ∃ w', main (Demo.demo_env false false) (Demo.world Demo.fs0) = (Ok tt, w') ∧
    fs w' = Demo.final ∧
    FS.walk out_at (fs w') = Some (FS.File Demo.artifact) ∧
    (∀ q, ¬ q `prefix_of` out_at → FS.walk q (fs w') = FS.walk q Demo.exported) ∧
    file_writes (new_events (Demo.world Demo.fs0) w') =
      [EvOpen out_path "wb"; EvWrite out_path].
Proof.
  split; [vm_compute; reflexivity|].
  destruct (successful_run_writes_artifact (Demo.demo_env false false)
              (Demo.world Demo.fs0) Demo.st1 Demo.model_bytes Demo.model_bytes
              Demo.exported Demo.model_bytes Demo.artifact Demo.final
              demo_converted demo_written)
    as (r & w' & Hrun & Hok & Hleft).
  exists w'. split; [|exact Hleft].
  rewrite (proj2 Hok (demo_printable false false)) in Hrun. exact Hrun.
Defined.




(** C9. When the run gets as far as the conversion and the conversion
    raises, the run ends with that exception, the file system is the one
    the exporter left, and no file has been opened for writing or written
    to.  With an exporter that leaves the output path alone, what was at
    the output path when the run started is still there, unchanged. *)
Theorem conversion_failure_keeps_artifact
    {Model TfRep Handle : Type} (env : Env Model TfRep Handle)
    w st1 m rep n2 h e :
  Exported env w st1 m rep n2 →
  from_saved_model env export_at n2 = Ok h →
  convert env (mkConverter h [DEFAULT]) n2 = Raise e →
  (∀ rep n r n', export_graph env rep export_at n = (r, n') →
                 FS.walk out_at n' = FS.walk out_at n) →
  ∃ w', main env w = (Raise e, w') ∧
    fs w' = n2 ∧
    file_writes (new_events w w') = [] ∧
    (∀ p mode, EvOpen p mode ∉ new_events w w') ∧
    FS.walk out_at (fs w') = FS.walk out_at (fs w).
Proof.
  intros Hexp Hfsm Hconv Hconfined. eexists. split.
  { apply outcome_main. by eapply halt_convert. }
  unfold after_preamble. cbn [fs]. split; [done|].
  rewrite (new_events_app _ _
    (preamble_events ++ translate_events (present w) ++ convert_events))
    by reflexivity.
  assert (file_writes
    (preamble_events ++ translate_events (present w) ++ convert_events) = [])
    as Hnone by (by destruct (present w)).
  split; [done|]. split.
  - intros p mode Hin. eapply in_file_writes in Hin; [|done].
    rewrite Hnone in Hin. by apply elem_of_nil in Hin.
  - rewrite (Hconfined _ _ _ _ (export_ok _ _ _ _ _ _ Hexp)).
    apply FSFacts.walk_remove_tree_apart, export_apart_out.
Qed.

(** On the instance with a failing conversion the old artifact survives. *)
Lemma conversion_failure_keeps_artifact_witness :
  ∃ w', main (Demo.demo_env false true) (Demo.world Demo.fs0) =
          (Raise (PyExn "ConverterError" ""), w') ∧
    fs w' = Demo.exported ∧
    file_writes (new_events (Demo.world Demo.fs0) w') = [] ∧
    (∀ p mode, EvOpen p mode ∉ new_events (Demo.world Demo.fs0) w') ∧
    FS.walk out_at (fs w') = FS.walk out_at (fs (Demo.world Demo.fs0)).
Proof.
  apply (conversion_failure_keeps_artifact (Demo.demo_env false true)
           (Demo.world Demo.fs0) Demo.st1 Demo.model_bytes Demo.model_bytes
           Demo.exported Demo.model_bytes).
  - apply demo_exported.
  - vm_compute. reflexivity.
  - vm_compute. reflexivity.
  - apply demo_export_leaves_artifact.
Defined.



(** * Further properties of the script *)

(** Both sides of an equation between states in one shape. *)
Ltac same_world :=
  unfold after_preamble, record, set_fs, set_modules, put_stdout;
  cbn [fs modules stdout trace];
  rewrite <- ?app_assoc; cbn [app]; rewrite ?app_nil_r; try reflexivity;
  unfold script_events, write_events, convert_events, translate_events,
    preamble_events, shim_events, shim_names, confirmation in *;
  cbn [map app] in *; rewrite <- ?app_assoc; cbn [app]; try reflexivity.

(** ** The patch on a namespace that lacks a function, or has them all *)

Lemma bind_name_id st ref name v :
  attr st ref name = Some v → bind_name ref name v st = st.
Proof.
  unfold attr, bind_name. destruct (st !! ref) as [ns|] eqn:Hns; [|done].
  intros Hv. simpl. by rewrite (insert_id ns), insert_id.
Qed.

Lemma patch_all_app made names st :
  patch_all (made ++ names) st =
  match patch_all made st with
  | Some st' => patch_all names st'
  | None => None
  end.
Proof.
  revert st. induction made as [|name made IH]; intros st; [done|].
  simpl. destruct (patch_store name st); [apply IH|done].
Qed.

(** A run of assignments stops at the first one whose lookup fails, with
    the assignments before it made. *)
Lemma patches_stop made name rest w st' :
  patch_all made (modules w) = Some st' →
  patch_store name st' = None →
  patches (made ++ name :: rest) w =
  (Raise (patch_error name st'),
   mkWorld (fs w) st' (stdout w) (trace w ++ map (EvSetAttr tf) made)).
Proof.
  revert w. induction made as [|n made IH]; intros w Hall Hnone.
  - simplify_eq/=. unfold bind. rewrite patch_run, Hnone, app_nil_r.
    by destruct w.
  - simpl in *. unfold bind. rewrite patch_run.
    destruct (patch_store n (modules w)) as [st1|]; [|done].
    rewrite (IH (mkWorld (fs w) st1 (stdout w) (trace w ++ [EvSetAttr tf n]))
               Hall Hnone).
    simpl. by rewrite <- app_assoc.
Qed.

Lemma patch_all_keeps_math names st st' math :
  patch_all names st = Some st' → "math" ∉ names →
  attr st tf "math" = Some (PyModule math) →
  attr st' tf "math" = Some (PyModule math).
Proof.
  intros Hall Hne Hm. by rewrite (patch_all_frame _ _ _ tf "math" Hall).
Qed.

Lemma patch_all_noop names st math :
  (∀ name, name ∈ names → rebound st math name) →
  patch_all names st = Some st.
Proof.
  induction names as [|name names IH]; intros Hall; [done|].
  destruct (Hall name) as (Hm & [v Hv] & Heq); [by left|].
  simpl. unfold patch_store. rewrite Hm, <- Heq, Hv.
  rewrite (bind_name_id _ _ _ _ Hv). apply IH.
  intros n Hn. apply Hall. by right.
Qed.

Lemma patch_all_math names st st' :
  patch_all names st = Some st' → names ≠ [] →
  ∃ math, attr st tf "math" = Some (PyModule math).
Proof.
  destruct names as [|name names]; [done|]. intros Hall _. simpl in Hall.
  unfold patch_store in Hall.
  destruct (attr st tf "math") as [[?|math]|]; try done. by exists math.
Qed.

Lemma math_not_shim_name : "math" ∉ shim_names.
Proof. apply (bool_decide_unpack _). vm_compute. exact I. Qed.

Lemma shim_names_NoDup : NoDup shim_names.
Proof. apply (bool_decide_unpack _). vm_compute. exact I. Qed.

(** X1. When the math module lacks one of the five functions, the run ends
    at the patch with an AttributeError for that name: the names before it
    in the source are assigned and stay assigned, the names after it are
    not, and neither the translator nor anything after it is reached. *)
Theorem missing_math_function_stops_at_patch
    {Model TfRep Handle : Type} (env : Env Model TfRep Handle)
    w math made name rest :
  import_fault env "onnx" (modules w) = None →
  import_fault env tf (modules w) = None →
  attr (modules w) tf "math" = Some (PyModule math) →
  shim_names = made ++ name :: rest →
  (∀ n, n ∈ made → is_Some (attr (modules w) math n)) →
  attr (modules w) math name = None →
  ∃ st',
    patch_all made (modules w) = Some st' ∧
    (∀ n, n ∈ made → rebound st' math n) ∧
    attr st' tf name = attr (modules w) tf name ∧
    main env w =
      (Raise (AttributeError name),
       mkWorld (fs w) st' (stdout w)
         (trace w ++ [EvImport "onnx"; EvImport tf] ++ map (EvSetAttr tf) made)).
Proof.
  intros Hi1 Hi2 Hm Hsplit Hmade Hname.
  pose proof math_not_shim_name as Hne. pose proof shim_names_NoDup as Hnd.
  rewrite Hsplit in Hne, Hnd.
  assert ("math" ∉ made) as Hne1 by (intros ?; apply Hne, elem_of_app; by left).
  assert (name ≠ "math") as Hne2
    by (intros ->; apply Hne, elem_of_app; right; by left).
  assert (name ∉ made) as Hfresh.
  { apply NoDup_app in Hnd as (_ & Hdis & _). intros Hin.
    apply (Hdis _ Hin). by left. }
  destruct (patch_all_total made (modules w) math Hne1 Hm Hmade) as [st' Hall].
  exists st'. split; [done|].
  split; [by eapply patch_all_rebound|].
  split; [by apply (patch_all_frame _ _ _ tf name Hall)|].
  assert (patch_store name st' = None) as Hnone.
  { unfold patch_store.
    rewrite (patch_all_keeps_math _ _ _ _ Hall Hne1 Hm).
    by rewrite (patch_all_frame _ _ _ math name Hall), Hname. }
  assert (patch_error name st' = AttributeError name) as Herr.
  { unfold patch_error. by rewrite (patch_all_keeps_math _ _ _ _ Hall Hne1 Hm). }
  unfold main, preamble, bind.
  rewrite import_run, Hi1, import_run. cbn [modules record]. rewrite Hi2.
  rewrite compat_shim_patches, Hsplit.
  rewrite (patches_stop made name rest _ st') by done.
  rewrite Herr. same_world.
Qed.

(** With no [sin] in the math module the run stops after three
    assignments. *)
Lemma missing_math_function_witness :
  ∃ st',
    patch_all ["ceil"; "floor"; "abs"] Demo.store_no_sin = Some st' ∧
    (∀ n, n ∈ ["ceil"; "floor"; "abs"] → rebound st' "tensorflow.math" n) ∧
    attr st' tf "sin" = attr Demo.store_no_sin tf "sin" ∧
    main (Demo.demo_env false false)
         (mkWorld Demo.fs0 Demo.store_no_sin EmptyString []) =
      (Raise (AttributeError "sin"),
       mkWorld Demo.fs0 st' EmptyString
         ([] ++ [EvImport "onnx"; EvImport tf] ++
          map (EvSetAttr tf) ["ceil"; "floor"; "abs"])).
Proof.
  apply (missing_math_function_stops_at_patch (Demo.demo_env false false)
           (mkWorld Demo.fs0 Demo.store_no_sin EmptyString [])
           "tensorflow.math" ["ceil"; "floor"; "abs"] "sin" ["cos"]).
  - reflexivity.
  - reflexivity.
  - vm_compute. reflexivity.
  - reflexivity.
  - intros n Hin.
    repeat (apply elem_of_cons in Hin; destruct Hin as [->|Hin]);
      [vm_compute; eexists; reflexivity ..|].
    by apply elem_of_nil in Hin.
  - vm_compute. reflexivity.
Defined.

(** X2. On a tensorflow whose five top-level names are already the
    functions of the math module, the patch makes its five assignments and
    leaves the module store exactly as it was. *)
Theorem shim_noop_when_bound w math :
  (∀ name, name ∈ shim_names → rebound (modules w) math name) →
  compat_shim w =
  (Ok tt, mkWorld (fs w) (modules w) (stdout w) (trace w ++ shim_events)).
Proof.
  intros Hall. apply compat_shim_ok. by eapply patch_all_noop.
Qed.

(** X3. The patch is idempotent: run again on the state a successful patch
    left, it succeeds and changes no binding. *)
Theorem shim_idempotent w w1 :
  compat_shim w = (Ok tt, w1) →
  compat_shim w1 =
  (Ok tt, mkWorld (fs w1) (modules w1) (stdout w1) (trace w1 ++ shim_events)).
Proof.
  rewrite compat_shim_patches. intros Hrun.
  apply patches_inv in Hrun as (_ & _ & made & _ & _ & Hall & Hok).
  assert (made = shim_names) as -> by (by apply Hok).
  destruct (patch_all_math _ _ _ Hall) as [math Hm]; [done|].
  apply compat_shim_ok. apply (patch_all_noop _ _ math).
  by eapply patch_all_rebound; [exact Hall|apply math_not_shim_name|].
Qed.

(** The patched store of the instance already has the five names. *)
Lemma shim_noop_when_bound_witness :
  compat_shim (mkWorld Demo.fs0 Demo.st1 EmptyString []) =
  (Ok tt, mkWorld Demo.fs0 Demo.st1 EmptyString ([] ++ shim_events)).
Proof.
  apply (shim_noop_when_bound (mkWorld Demo.fs0 Demo.st1 EmptyString [])
           "tensorflow.math").
  intros name Hin. unfold shim_names in Hin.
  repeat (apply elem_of_cons in Hin; destruct Hin as [->|Hin]);
    [(split; [vm_compute; reflexivity|];
      split; [vm_compute; eexists; reflexivity|vm_compute; reflexivity]) ..|].
  by apply elem_of_nil in Hin.
Defined.

Lemma shim_idempotent_witness :
  compat_shim (mkWorld Demo.fs0 Demo.st1 EmptyString shim_events) =
  (Ok tt, mkWorld Demo.fs0 Demo.st1 EmptyString (shim_events ++ shim_events)).
Proof.
  apply (shim_idempotent (Demo.world Demo.fs0)
           (mkWorld Demo.fs0 Demo.st1 EmptyString shim_events)).
  vm_compute. reflexivity.
Defined.

(** ** What a run leaves behind, and what its collaborators get to see *)

Lemma script_events_convert b j opts :
  script_events b !! j = Some (EvConvert opts) → opts = [DEFAULT].
Proof. intros H. destruct b; vm_compute in H; by_position H j; subst; done. Qed.

Lemma patch_all_patched st st1 : shim_store st = Some st1 → patched st1.
Proof.
  unfold shim_store. intros Hall name Hin.
  destruct (patch_all_math _ _ _ Hall) as [math Hm]; [done|].
  by destruct (patch_all_rebound _ _ _ math Hall math_not_shim_name Hm name Hin)
    as (_ & ? & _).
Qed.

(** X4. When the translator raises, the run ends with its exception before
    anything on disk is touched: the existence check and the removal come
    after the translation, so the intermediate directory of an earlier run
    and the old artifact are still there. *)
Theorem translation_failure_leaves_files
    {Model TfRep Handle : Type} (env : Env Model TfRep Handle) w st1 m e :
  Started env w st1 →
  onnx_load env model_file (fs w) = Ok m →
  prepare env st1 m false = Raise e →
  ∃ w', main env w = (Raise e, w') ∧
    fs w' = fs w ∧
    new_events w w' = preamble_events ++ [EvLoad model_path; EvPrepare false] ∧
    (∀ p, EvRmtree p ∉ new_events w w').
Proof.
  intros Hst Hload Hprep. eexists. split.
  { apply outcome_main. by eapply halt_prepare. }
  unfold after_preamble. cbn [fs]. split; [done|].
  rewrite (new_events_app _ _
    (preamble_events ++ [EvLoad model_path; EvPrepare false])) by reflexivity.
  split; [done|]. intros p Hin. in_list_inv Hin.
Qed.

Lemma translation_failure_witness :
  ∃ w', main (with_prepare Demo.prepare_fails (Demo.demo_env false false))
             (Demo.world Demo.fs0) =
          (Raise (PyExn "RuntimeError" "unsupported graph"), w') ∧
    fs w' = fs (Demo.world Demo.fs0) ∧
    new_events (Demo.world Demo.fs0) w' =
      preamble_events ++ [EvLoad model_path; EvPrepare false] ∧
    (∀ p, EvRmtree p ∉ new_events (Demo.world Demo.fs0) w').
Proof.
  apply (translation_failure_leaves_files
           (with_prepare Demo.prepare_fails (Demo.demo_env false false))
           (Demo.world Demo.fs0) Demo.st1 Demo.model_bytes).
  - destruct (demo_exported false) as [[] _ _ _]. by split.
  - vm_compute. reflexivity.
  - reflexivity.
Defined.

(** X5. The conversion is only ever asked for the default optimizations:
    every conversion call in a trace carries exactly [[DEFAULT]], and the
    run does not depend on what the converter would do with any other
    setting. *)
Theorem conversion_always_default
    {Model TfRep Handle : Type} (env : Env Model TfRep Handle)
    (f : Converter Handle → FS.node → result (list byte)) w :
  (∀ h n, f (mkConverter h [DEFAULT]) n = convert env (mkConverter h [DEFAULT]) n) →
  main (with_convert f env) w = main env w ∧
  ∀ opts, EvConvert opts ∈ new_events w (main env w).2 → opts = [DEFAULT].
Proof.
  intros Hf. destruct (main env w) as [r w'] eqn:Hrun. cbn [snd]. split.
  - assert (∀ st1 m rep n2, Exported env w st1 m rep n2 →
              Exported (with_convert f env) w st1 m rep n2) as Hexported.
    { intros st1 m rep n2 [[] Hl Hp He]. by repeat split. }
    apply outcome_main. apply main_outcome in Hrun.
    destruct Hrun as [e w1 Hp
         |st1 e Hst Hl
         |st1 m e Hst Hl Hp
         |st1 m rep e n2 Hst Hl Hp He
         |st1 m rep n2 e Hex Hfs
         |st1 m rep n2 h e Hex Hfs Hc
         |st1 m rep n2 h b [Hex Hfs Hc] Hw
         |st1 m rep n2 h b n3 sent e [Hex Hfs Hc] Hw Hpr
         |st1 m rep n2 h b n3 [Hex Hfs Hc] Hw Hpr].
    + by apply halt_preamble.
    + apply halt_load; [by destruct Hst|done].
    + eapply halt_prepare; [by destruct Hst|done..].
    + eapply halt_export; [by destruct Hst|done..].
    + eapply halt_from_saved_model; [by apply Hexported|done].
    + eapply halt_convert; [by apply Hexported|done|].
      change (f (mkConverter h [DEFAULT]) n2 = Raise e). by rewrite Hf.
    + eapply halt_open; [|done]. split; [by apply Hexported|done|].
      change (f (mkConverter h [DEFAULT]) n2 = Ok b). by rewrite Hf.
    + eapply halt_print; [|done|exact Hpr]. split; [by apply Hexported|done|].
      change (f (mkConverter h [DEFAULT]) n2 = Ok b). by rewrite Hf.
    + eapply finished; [|done|exact Hpr]. split; [by apply Hexported|done|].
      change (f (mkConverter h [DEFAULT]) n2 = Ok b). by rewrite Hf.
  - destruct (run_summary env _ _ _ Hrun) as (t & made & Htr & Hpre & _).
    rewrite (new_events_app _ _ _ Htr). intros opts Hin.
    apply list_elem_of_lookup in Hin as [j Hj].
    eapply prefix_lookup_Some in Hj; [|exact Hpre].
    by apply script_events_convert in Hj.
Qed.

Lemma conversion_always_default_witness :
  main (with_convert Demo.convert_default_only (Demo.demo_env false false))
       (Demo.world Demo.fs0) =
  main (Demo.demo_env false false) (Demo.world Demo.fs0) ∧
  ∀ opts,
    EvConvert opts ∈
      new_events (Demo.world Demo.fs0)
        (main (Demo.demo_env false false) (Demo.world Demo.fs0)).2 →
    opts = [DEFAULT].
Proof.
  apply (conversion_always_default (Demo.demo_env false false)
           Demo.convert_default_only (Demo.world Demo.fs0)).
  intros h n. reflexivity.
Defined.

(** The exporter of the instance changes nothing apart from its path. *)
Lemma demo_export_confined rep n res n' q :
  Demo.demo_export rep export_at n = (res, n') →
  FS.apart export_at q → FS.walk q n' = FS.walk q n.
Proof.
  unfold Demo.demo_export.
  destruct (FS.put export_at _ n) as [n1|] eqn:Hput; intros [= <- <-] Hq; [|done].
  by eapply FSFacts.walk_put_apart.
Qed.

Lemma demo_patched st : patched st → Demo.patched st = true.
Proof.
  intros Hp. unfold Demo.patched. apply forallb_forall. intros name Hin.
  apply bool_decide_eq_true_2, Hp. by apply list_elem_of_In.
Qed.

(** X6. onnx-tf only ever sees a patched tensorflow: its import and its
    translator are consulted with a module store in which all five names
    are bound, so two versions of onnx-tf that agree on such stores (in
    lenient mode) give the same run, whatever they do on a tensorflow
    without the five names. *)
Theorem onnx_tf_sees_patched_tensorflow
    {Model TfRep Handle : Type} (env : Env Model TfRep Handle)
    (imp : gmap string (gmap string pyobj) → option exn)
    (prep : gmap string (gmap string pyobj) → Model → bool → result TfRep) w :
  (∀ st, patched st → imp st = import_fault env "onnx_tf.backend" st) →
  (∀ st m, patched st → prep st m false = prepare env st m false) →
  main (with_onnx_tf imp prep env) w = main env w.
Proof.
  intros Himp Hprep.
  assert (∀ name st, name ≠ "onnx_tf.backend" →
            import_fault (with_onnx_tf imp prep env) name st =
            import_fault env name st) as Hother.
  { intros name st Hne. cbn [import_fault with_onnx_tf]. by rewrite decide_False. }
  assert (∀ st, import_fault (with_onnx_tf imp prep env) "onnx_tf.backend" st = imp st)
    as Hsame by (intros st; cbn [import_fault with_onnx_tf]; by rewrite decide_True).
  assert (preamble (with_onnx_tf imp prep env) w = preamble env w) as Hpre.
  { unfold preamble, bind. rewrite !import_run.
    rewrite (Hother "onnx") by done.
    destruct (import_fault env "onnx" (modules w)); [done|].
    rewrite !import_run. cbn [modules record]. rewrite (Hother tf) by done.
    destruct (import_fault env tf (modules w)); [done|].
    destruct (compat_shim _) as [[[]|e3] w3] eqn:H3; [|done].
    rewrite compat_shim_patches in H3.
    apply patches_inv in H3 as (_ & _ & made & _ & _ & Hall & Hok).
    assert (made = shim_names) as -> by (by apply Hok).
    cbn [modules record] in Hall.
    rewrite !import_run, Hsame, Himp by (by eapply patch_all_patched).
    destruct (import_fault env "onnx_tf.backend" (modules w3)); [done|].
    rewrite !import_run. cbn [modules record]. by rewrite (Hother "os") by done. }
  assert (∀ st1, Started env w st1 →
            Started (with_onnx_tf imp prep env) w st1 ∧ patched st1) as Hstarted.
  { intros st1 [H1 H2 H3 H4 H5].
    pose proof (patch_all_patched _ _ H3) as Hp.
    split; [|done]. split; rewrite ?Hother by done; try done.
    by rewrite Hsame, Himp. }
  assert (∀ st1 m rep n2, Exported env w st1 m rep n2 →
            Exported (with_onnx_tf imp prep env) w st1 m rep n2) as Hexported.
  { intros st1 m rep n2 [Hst Hl Hp He].
    destruct (Hstarted _ Hst) as [Hst' Hpat]. split; try done.
    change (prep st1 m false = Ok rep). by rewrite Hprep. }
  destruct (main env w) as [r w'] eqn:Hrun.
  apply outcome_main. apply main_outcome in Hrun.
  destruct Hrun as [e w1 Hp
       |st1 e Hst Hl
       |st1 m e Hst Hl Hp
       |st1 m rep e n2 Hst Hl Hp He
       |st1 m rep n2 e Hex Hfs
       |st1 m rep n2 h e Hex Hfs Hc
       |st1 m rep n2 h b [Hex Hfs Hc] Hw
       |st1 m rep n2 h b n3 sent e [Hex Hfs Hc] Hw Hpr
       |st1 m rep n2 h b n3 [Hex Hfs Hc] Hw Hpr].
  - apply halt_preamble. by rewrite Hpre.
  - apply halt_load; [by apply Hstarted|done].
  - destruct (Hstarted _ Hst) as [Hst' Hpat].
    eapply halt_prepare; [done|done|].
    change (prep st1 m false = Raise e). by rewrite Hprep.
  - destruct (Hstarted _ Hst) as [Hst' Hpat].
    eapply halt_export; [done|done| |done].
    change (prep st1 m false = Ok rep). by rewrite Hprep.
  - eapply halt_from_saved_model; [by apply Hexported|done].
  - eapply halt_convert; [by apply Hexported|done..].
  - eapply halt_open; [|done]. split; [by apply Hexported|done..].
  - eapply halt_print; [|done|exact Hpr]. split; [by apply Hexported|done..].
  - eapply finished; [|done|exact Hpr]. split; [by apply Hexported|done..].
Qed.

(** An onnx-tf that imports on any tensorflow gives the run of the one
    that needs the five names. *)
Lemma onnx_tf_sees_patched_tensorflow_witness :
  main (with_onnx_tf (λ _, None) (Demo.demo_prepare false)
          (Demo.demo_env false false)) (Demo.world Demo.fs0) =
  main (Demo.demo_env false false) (Demo.world Demo.fs0).
Proof.
  apply (onnx_tf_sees_patched_tensorflow (Demo.demo_env false false)
           (λ _, None) (Demo.demo_prepare false) (Demo.world Demo.fs0)).
  - intros st Hp. cbn [import_fault Demo.demo_env]. unfold Demo.demo_import_fault.
    by rewrite (demo_patched _ Hp).
  - intros st m Hp. reflexivity.
Defined.

(** X7. With an exporter that changes nothing apart from its path, a run
    touches the export path and the output path and nothing else: whatever
    the outcome, every path that is apart from the export path and is
    neither the output path nor a directory above it leads to what it led
    to before the run.  In particular the model file is never changed. *)
Theorem run_touches_two_paths
    {Model TfRep Handle : Type} (env : Env Model TfRep Handle) w r w' :
  (∀ rep n res n' q, export_graph env rep export_at n = (res, n') →
                     FS.apart export_at q → FS.walk q n' = FS.walk q n) →
  main env w = (r, w') →
  ∀ q, FS.apart export_at q → ¬ q `prefix_of` out_at →
       FS.walk q (fs w') = FS.walk q (fs w).
Proof.
  intros Hconf Hrun q Hq Hout. apply main_outcome in Hrun.
  assert (∀ rep res n2,
            export_graph env rep export_at (FS.remove_tree export_at (fs w)) = (res, n2) →
            FS.walk q n2 = FS.walk q (fs w)) as Hexp.
  { intros rep res n2 He. rewrite (Hconf _ _ _ _ _ He Hq).
    by apply FSFacts.walk_remove_tree_apart. }
  destruct Hrun as [e w1 Hp
       |st1 e Hst Hl
       |st1 m e Hst Hl Hp
       |st1 m rep e n2 Hst Hl Hp He
       |st1 m rep n2 e [Hst Hl Hp He] Hf
       |st1 m rep n2 h e [Hst Hl Hp He] Hf Hc
       |st1 m rep n2 h b [[Hst Hl Hp He] Hf Hc] Hw
       |st1 m rep n2 h b n3 sent e [[Hst Hl Hp He] Hf Hc] Hw Hpr
       |st1 m rep n2 h b n3 [[Hst Hl Hp He] Hf Hc] Hw Hpr];
    unfold after_preamble; cbn [fs]; try done; try (by eapply Hexp).
  - destruct (preamble_inv _ _ _ _ Hp) as (Hfs & _). by rewrite Hfs.
  - rewrite (FSFacts.walk_write_file_other _ _ _ _ _ Hw Hout). by eapply Hexp.
  - rewrite (FSFacts.walk_write_file_other _ _ _ _ _ Hw Hout). by eapply Hexp.
Qed.

(** On the instance the model file is what it was after a whole run. *)
Lemma run_touches_two_paths_witness :
  FS.walk model_file (fs (main (Demo.demo_env false false) (Demo.world Demo.fs0)).2) =
  FS.walk model_file (fs (Demo.world Demo.fs0)).
Proof.
  apply (run_touches_two_paths (Demo.demo_env false false) (Demo.world Demo.fs0)
           (main (Demo.demo_env false false) (Demo.world Demo.fs0)).1).
  - intros rep n res n' q. apply demo_export_confined.
  - apply surjective_pairing.
  - apply export_apart_model.
  - apply (bool_decide_unpack _). vm_compute. exact I.
Defined.
